(** * The reporting core of stylelint: [lib/utils/report.mjs] and the
      [function-space-after] rule

    A shallow embedding of [report], [isFixApplied], [isDisabled],
    [addFixData], [buildWarningMessage] and [printfLike] from
    [lib/utils/report.mjs], and of [checkClosingParen] from
    [src/rules/function-space-after/index.js], followed by the properties
    of the specification that concern them.

    JavaScript objects used as dictionaries are [gmap]s keyed by strings;
    an absent property ([undefined]) is [None]; the mutable
    [result.stylelint] object is threaded explicitly, and an exception
    carries the state in which it was thrown. *)

From Stdlib Require Import ZArith Lia List Bool Ascii String.
From Stdlib Require Import Numbers.DecimalString.
From stdpp Require Import base option gmap strings.

Import ListNotations.
Local Open Scope string_scope.
Local Open Scope list_scope.
Local Open Scope Z_scope.

(* ===================================================================== *)
(** ** JavaScript values and the string primitives used by the source     *)
(* ===================================================================== *)

Module Js.

(** The values a rule passes as [messageArgs] (typed [unknown] in the
    source; the primitives are what [String(arg)] distinguishes). *)
Inductive value : Type :=
| Undefined
| Null
| Bool (b : bool)
| Num (z : Z)
| Str (s : string).

(** [String(arg)]. Numbers are the integers, printed in decimal as
    JavaScript prints those below 10^21. *)
Definition String (v : value) : string :=
  match v with
  | Undefined => "undefined"
  | Null => "null"
  | Bool true => "true"
  | Bool false => "false"
  | Num z => NilZero.string_of_int (Z.to_int z)
  | Str s => s
  end.

(** The character class [[ds]] of the regular expression [/%[ds]/]. *)
Definition is_ds (c : ascii) : bool :=
  (Ascii.eqb c "d" || Ascii.eqb c "s")%bool.

(** Does the regular expression [/%[ds]/] match at the very start? *)
Definition placeholder_at (s : string) : option (ascii * string) :=
  match s with
  | String.String p (String.String c rest) =>
      if (Ascii.eqb p "%" && is_ds c)%bool then Some (c, rest) else None
  | _ => None
  end.

(** The leftmost match of [/%[ds]/] in [s]: the text before it, the
    matched text and the text after it. *)
Fixpoint search (s : string) : option (string * string * string) :=
  match placeholder_at s with
  | Some (c, rest) => Some ("", String.String "%" (String.String c ""), rest)
  | None =>
      match s with
      | "" => None
      | String.String a t =>
          match search t with
          | Some (pre, m, suf) => Some (String.String a pre, m, suf)
          | None => None
          end
      end
  end.

(** [GetSubstitution] of ECMAScript for a pattern without capture groups:
    in the replacement text [$$] stands for a dollar sign, [$&] for the
    matched text, [$`] for the text before the match and [$'] for the
    text after it; every other character, a lone [$] included, is
    literal. *)
Fixpoint getSubstitution (matched pre suf replacement : string) : string :=
  match replacement with
  | "" => ""
  | String.String a t =>
      if Ascii.eqb a "$" then
        match t with
        | String.String c rest =>
            if Ascii.eqb c "$" then
              String.String "$" (getSubstitution matched pre suf rest)
            else if Ascii.eqb c "&" then
              matched +:+ getSubstitution matched pre suf rest
            else if Ascii.eqb c "`" then
              pre +:+ getSubstitution matched pre suf rest
            else if Ascii.eqb c "'" then
              suf +:+ getSubstitution matched pre suf rest
            else String.String a (getSubstitution matched pre suf t)
        | "" => String.String a ""
        end
      else String.String a (getSubstitution matched pre suf t)
  end.

(** [s.replace(/%[ds]/, replacement)]: the pattern has no [g] flag, so
    only the leftmost match is replaced; without a match [s] is
    returned. *)
Definition replace (s replacement : string) : string :=
  match search s with
  | Some (pre, m, suf) => pre +:+ getSubstitution m pre suf replacement +:+ suf
  | None => s
  end.

End Js.

(* ===================================================================== *)
(** ** [lib/utils/report.mjs]                                             *)
(* ===================================================================== *)

Module Report.

(** Modelled from the spec: [RULE_NAME_ALL] is imported from
    [lib/constants.mjs], which is not among the sources; the specification
    calls it the blanket "all" key. *)
Definition RULE_NAME_ALL : string := "all".

(** A line and column pair. *)
Record Position : Type := mkPosition { pos_line : Z; pos_column : Z }.

(** What a fix callback may return: the range it edited. *)
Record Range : Type := mkRange { range_start : Position; range_end : Position }.

(** An entry of [disabledRanges]: [end] and [rules] are optional. *)
Record DisabledRange : Type := mkDisabledRange {
  dr_start : Z;
  dr_end : option Z;
  dr_rules : option (list string)
}.

(** [disabledRanges[ruleName] ?? disabledRanges[RULE_NAME_ALL] ?? []] *)
Definition rangesFor (ruleName : string)
    (disabledRanges : gmap string (list DisabledRange)) : list DisabledRange :=
  match disabledRanges !! ruleName with
  | Some ranges => ranges
  | None =>
      match disabledRanges !! RULE_NAME_ALL with
      | Some ranges => ranges
      | None => []
      end
  end.

(** The condition of the [if] inside the loop of [isDisabled]. *)
Definition rangeCovers (ruleName : string) (startLine : Z) (range : DisabledRange) : bool :=
  (dr_start range <=? startLine)
  && match dr_end range with None => true | Some e => e >=? startLine end
  && match dr_rules range with
     | None => true
     | Some rules => existsb (String.eqb ruleName) rules
     end.

(** The [for ... of] loop of [isDisabled], returning at the first range
    that covers the line. *)
Fixpoint isDisabled_loop (ruleName : string) (startLine : Z)
    (ranges : list DisabledRange) : bool :=
  match ranges with
  | [] => false
  | range :: rest =>
      if rangeCovers ruleName startLine range then true
      else isDisabled_loop ruleName startLine rest
  end.

Definition isDisabled (ruleName : string) (startLine : Z)
    (disabledRanges : gmap string (list DisabledRange)) : bool :=
  isDisabled_loop ruleName startLine (rangesFor ruleName disabledRanges).


(** [ruleMetadata[ruleName]]: the only property read is [fixable]. *)
Record RuleMeta : Type := mkRuleMeta { fixable : bool }.

(** A severity is either a literal or a function of the message
    arguments; a function that yields nothing usable is [None]. *)
Inductive RuleSeverity : Type :=
| SeverityLiteral (s : string)
| SeverityFn (f : list Js.value -> option string).

(** A message is either a template string or a function of the message
    arguments. *)
Inductive RuleMessage : Type :=
| MessageString (s : string)
| MessageFn (f : list Js.value -> string).

(** The secondary options of a configured rule; [disableFix] is the one
    property the source reads. *)
Record SecondaryOptions : Type := mkSecondaryOptions { disableFix : bool }.

(** What [config.rules[ruleName]] can hold: [null], a bare primary
    option (a boolean, a number or a string), or an array of the primary
    option and, possibly, the secondary options. The primary option is
    never read by the source and is left out. *)
Inductive ConfigRuleSettings : Type :=
| SettingsNull
| SettingsPrimary
| SettingsArray (secondary : option SecondaryOptions).

(** The part of [result.stylelint.config] that the source reads; flags
    are kept by their truthiness ([fix_enabled] is [config.fix]). *)
Record Config : Type := mkConfig {
  defaultSeverity : option string;
  ignoreDisables : bool;
  fix_enabled : bool;
  rules : option (gmap string ConfigRuleSettings)
}.

(** An entry of [disabledWarnings]. *)
Record DisabledWarning : Type := mkDisabledWarning { dw_rule : string; dw_line : Z }.

(** An entry of [fixersData[ruleName]]. *)
Record FixerData : Type := mkFixerData { fd_range : option Range; fd_fixed : bool }.

(** What [node.rangeBy] returns, as far as [report] looks at it. *)
Record NodeRange : Type := mkNodeRange { nr_start : option Position; nr_end : option Position }.

(** A document node: [report] only calls its [rangeBy] method. *)
Record Node : Type := mkNode {
  rangeBy : option Z -> option Z -> NodeRange
}.

(** The two kinds of exception that can leave [report]. *)
Inductive Exception : Type :=
| Error (message : string)
| TypeError (message : string).

(** The outcome of a call that mutates a store of type [S]: it returns a
    value, or throws; either way the store is left as the call made it. *)
Inductive outcome (S A : Type) : Type :=
| Returned (a : A) (s : S)
| Thrown (e : Exception) (s : S).
Arguments Returned {S A} a s.
Arguments Thrown {S A} e s.

(** [result.stylelint] *)
Record Stylelint : Type := mkStylelint {
  disabledRanges : gmap string (list DisabledRange);
  quiet : bool;
  ruleSeverities : gmap string RuleSeverity;
  config : option Config;
  customMessages : gmap string RuleMessage;
  customUrls : gmap string string;
  ruleMetadata : gmap string RuleMeta;
  disabledWarnings : option (list DisabledWarning);
  stylelintError : bool;
  stylelintWarning : bool;
  fixersData : gmap string (list FixerData)
}.

(** The second argument of [result.warn]. *)
Record WarningOptions : Type := mkWarningOptions {
  w_severity : option string;
  w_rule : string;
  w_node : option Node;
  w_start : option Position;
  w_index : option Z;
  w_end : option Position;
  w_endIndex : option Z;
  w_word : option string;
  w_url : option string
}.

(** [isFn(fix)] and the like: is the optional property there? *)
Definition is_Some_b {A : Type} (o : option A) : bool :=
  match o with Some _ => true | None => false end.

Section Pipeline.

(** The document that fix callbacks edit ([result.root]). *)
Context {Doc : Type}.

(** The PostCSS result: [result.warn(text, opts)] appends to
    [result.messages]; fix callbacks edit [result.root]. *)
Record Result : Type := mkResult {
  stylelint : Stylelint;
  messages : list (string * WarningOptions);
  root : Doc
}.

(** The argument of [report], without its [result] property, which is
    the store the call works on. *)
Record Problem : Type := mkProblem {
  ruleName : string;
  node : option Node;
  index : option Z;
  endIndex : option Z;
  line : option Z;
  start : option Position;
  end_ : option Position;
  word : option string;
  fix_ : option (Doc -> Doc * option Range);
  message : RuleMessage;
  messageArgs : option (list Js.value);
  severity : option RuleSeverity
}.

(** [config = {}]: the configuration used when [result.stylelint.config]
    is absent. *)
Definition emptyConfig : Config :=
  {| defaultSeverity := None; ignoreDisables := false;
     fix_enabled := false; rules := None |}.

(** Assignments to properties of [result.stylelint] and of [result]. *)
Definition set_fixersData (fd : gmap string (list FixerData)) (st : Stylelint) : Stylelint :=
  {| disabledRanges := disabledRanges st; quiet := quiet st;
     ruleSeverities := ruleSeverities st; config := config st;
     customMessages := customMessages st; customUrls := customUrls st;
     ruleMetadata := ruleMetadata st; disabledWarnings := disabledWarnings st;
     stylelintError := stylelintError st; stylelintWarning := stylelintWarning st;
     fixersData := fd |}.

Definition set_disabledWarnings (dw : option (list DisabledWarning)) (st : Stylelint) : Stylelint :=
  {| disabledRanges := disabledRanges st; quiet := quiet st;
     ruleSeverities := ruleSeverities st; config := config st;
     customMessages := customMessages st; customUrls := customUrls st;
     ruleMetadata := ruleMetadata st; disabledWarnings := dw;
     stylelintError := stylelintError st; stylelintWarning := stylelintWarning st;
     fixersData := fixersData st |}.

Definition set_stylelintError (b : bool) (st : Stylelint) : Stylelint :=
  {| disabledRanges := disabledRanges st; quiet := quiet st;
     ruleSeverities := ruleSeverities st; config := config st;
     customMessages := customMessages st; customUrls := customUrls st;
     ruleMetadata := ruleMetadata st; disabledWarnings := disabledWarnings st;
     stylelintError := b; stylelintWarning := stylelintWarning st;
     fixersData := fixersData st |}.

Definition set_stylelintWarning (b : bool) (st : Stylelint) : Stylelint :=
  {| disabledRanges := disabledRanges st; quiet := quiet st;
     ruleSeverities := ruleSeverities st; config := config st;
     customMessages := customMessages st; customUrls := customUrls st;
     ruleMetadata := ruleMetadata st; disabledWarnings := disabledWarnings st;
     stylelintError := stylelintError st; stylelintWarning := b;
     fixersData := fixersData st |}.

Definition set_quiet (b : bool) (st : Stylelint) : Stylelint :=
  {| disabledRanges := disabledRanges st; quiet := b;
     ruleSeverities := ruleSeverities st; config := config st;
     customMessages := customMessages st; customUrls := customUrls st;
     ruleMetadata := ruleMetadata st; disabledWarnings := disabledWarnings st;
     stylelintError := stylelintError st; stylelintWarning := stylelintWarning st;
     fixersData := fixersData st |}.

Definition update_stylelint (f : Stylelint -> Stylelint) (result : Result) : Result :=
  {| stylelint := f (stylelint result); messages := messages result; root := root result |}.

Definition set_root (d : Doc) (result : Result) : Result :=
  {| stylelint := stylelint result; messages := messages result; root := d |}.

(** [result.warn(text, opts)] *)
Definition warn (text : string) (opts : WarningOptions) (result : Result) : Result :=
  {| stylelint := stylelint result;
     messages := messages result ++ [(text, opts)];
     root := root result |}.

(** [addFixData]: [(fixersData[ruleName] ??= []).push({ range, fixed })] *)
Definition addFixData (fixersData : gmap string (list FixerData)) (ruleName : string)
    (range : option Range) (fixed : bool) : gmap string (list FixerData) :=
  let ruleFixers := default [] (fixersData !! ruleName) in
  <[ruleName := ruleFixers ++ [mkFixerData range fixed]]> fixersData.

(** [config.rules?.[ruleName][1]?.disableFix], by its truthiness. The
    optional chain stops at an absent [config.rules] and at an absent
    second element; between the two, [config.rules[ruleName]] is indexed
    unguarded, which throws when it is [undefined] or [null]. *)
Definition ruleDisablesFix (cfg : Config) (ruleName : string) : Exception + bool :=
  match rules cfg with
  | None => inr false
  | Some rs =>
      match rs !! ruleName with
      | None => inl (TypeError "Cannot read properties of undefined (reading '1')")
      | Some SettingsNull => inl (TypeError "Cannot read properties of null (reading '1')")
      | Some SettingsPrimary => inr false
      | Some (SettingsArray None) => inr false
      | Some (SettingsArray (Some o)) => inr (disableFix o)
      end
  end.

(** [Boolean(config.fix && !config.rules?.[ruleName][1]?.disableFix)];
    the right operand of [&&] is evaluated only when [config.fix] is
    truthy. *)
Definition shouldFix (cfg : Config) (ruleName : string) : Exception + bool :=
  if fix_enabled cfg then
    match ruleDisablesFix cfg ruleName with
    | inl e => inl e
    | inr d => inr (negb d)
    end
  else inr false.

(** [shouldFix && (config.ignoreDisables || !isDisabled(ruleName, line, disabledRanges))] *)
Definition mayFix (should : bool) (cfg : Config) (ruleName : string) (line : Z)
    (ranges : gmap string (list DisabledRange)) : bool :=
  should && (ignoreDisables cfg || negb (isDisabled ruleName line ranges)).

(** [isFixApplied({ ...problem, line: startLine })] *)
Definition isFixApplied (problem : Problem) (line : Z) (result : Result)
    : outcome Result bool :=
  let st := stylelint result in
  let cfg := default emptyConfig (config st) in
  match fix_ problem with
  | None =>
      Returned false
        (update_stylelint
           (set_fixersData (addFixData (fixersData st) (ruleName problem) None false))
           result)
  | Some callback =>
      match shouldFix cfg (ruleName problem) with
      | inl e => Thrown e result
      | inr should =>
          if mayFix should cfg (ruleName problem) line (disabledRanges st) then
            let '(root', range) := callback (root result) in
            Returned true
              (update_stylelint
                 (set_fixersData (addFixData (fixersData st) (ruleName problem) range true))
                 (set_root root' result))
          else
            Returned false
              (update_stylelint
                 (set_fixersData (addFixData (fixersData st) (ruleName problem) None false))
                 result)
      end
  end.

(** [printfLike(format, ...args)]: a [reduce] over the arguments, each
    replacing the leftmost placeholder of the text obtained so far. *)
Definition printfLike (format : string) (args : list Js.value) : string :=
  fold_left (fun result arg => Js.replace result (Js.String arg)) args format.

Definition buildWarningMessage (message : RuleMessage) (messageArgs : list Js.value) : string :=
  match message with
  | MessageString s => printfLike s messageArgs
  | MessageFn f => f messageArgs
  end.

(** The double quote, written by its code to keep string literals plain. *)
Definition dq : string := String.String "034"%char "".

(** The text of the error thrown at lines 36 to 38. *)
Definition fixableErrorText (ruleName : string) : string :=
  "The " +:+ dq +:+ ruleName +:+ dq +:+ " rule requires " +:+ dq +:+ "meta.fixable" +:+ dq
  +:+ " to be truthy if the " +:+ dq +:+ "fix" +:+ dq +:+ " callback is being passed".

(** The text of the error thrown at lines 47 to 49. *)
Definition lineErrorText (ruleName : string) : string :=
  "The " +:+ dq +:+ ruleName +:+ dq
  +:+ " rule failed to pass either a node or a line number to the `report()` function.".

(** Truthiness of a string-valued property that may be absent. *)
Definition truthy (s : option string) : bool :=
  match s with
  | Some s => negb (String.eqb s "")
  | None => false
  end.

(** [ruleSeverity === literal] *)
Definition severityIs (literal : string) (ruleSeverity : option string) : bool :=
  match ruleSeverity with
  | Some s => String.eqb s literal
  | None => false
  end.

(** Line 30: [isFn(severity) ? severity(...messageArgs) || defaultSeverity : severity],
    where [severity] defaults to [ruleSeverities[ruleName]] (line 29) and
    [defaultSeverity] to ['error'] (line 24). *)
Definition ruleSeverity (problem : Problem) (st : Stylelint) : option string :=
  let cfg := default emptyConfig (config st) in
  let defaultSeverity := default "error" (defaultSeverity cfg) in
  let messageArgs := default [] (messageArgs problem) in
  let severity :=
    match severity problem with
    | Some s => Some s
    | None => ruleSeverities st !! ruleName problem
    end in
  match severity with
  | Some (SeverityFn f) =>
      if truthy (f messageArgs) then f messageArgs else Some defaultSeverity
  | Some (SeverityLiteral s) => Some s
  | None => None
  end.

(** Lines 41 to 44: [line ?? node?.rangeBy({ index, endIndex }).start?.line] *)
Definition startLine (problem : Problem) : option Z :=
  let range :=
    match node problem with
    | Some n => rangeBy n (index problem) (endIndex problem)
    | None => mkNodeRange None None
    end in
  match line problem with
  | Some l => Some l
  | None => pos_line <$> nr_start range
  end.

(** Lines 76 to 103: the properties handed to [result.warn]. *)
Definition warningProperties (problem : Problem) (customUrl : option string)
    (ruleSeverity : option string) : WarningOptions :=
  {| w_severity := ruleSeverity;
     w_rule := ruleName problem;
     w_node := node problem;
     w_start := start problem;
     w_index := match start problem with Some _ => None | None => index problem end;
     w_end := end_ problem;
     w_endIndex := match end_ problem with Some _ => None | None => endIndex problem end;
     w_word := if truthy (word problem) then word problem else None;
     w_url := if truthy customUrl then customUrl else None |}.

(** Lines 54 to 107, the rest of the body of [report] once
    [isFixApplied] has returned [false]; the arguments besides [problem]
    and the store are the local constants of [report] bound at lines 20
    to 44. *)
Definition emit (problem : Problem) (startLine : Z) (ruleSeverity : option string)
    (disabledRanges : gmap string (list DisabledRange)) (ignoreDisables : bool)
    (message : RuleMessage) (customUrl : option string) (result : Result)
    : outcome Result unit :=
  let disabled := isDisabled (ruleName problem) startLine disabledRanges in
  let result1 :=
    if disabled then
      update_stylelint
        (fun st =>
           set_disabledWarnings
             (Some (default [] (disabledWarnings st)
                    ++ [mkDisabledWarning (ruleName problem) startLine]))
             st)
        result
    else result in
  if disabled && negb ignoreDisables then Returned tt result1
  else
    let result2 :=
      if negb (stylelintError (stylelint result1)) && severityIs "error" ruleSeverity
      then update_stylelint (set_stylelintError true) result1
      else result1 in
    let result3 :=
      if negb (stylelintWarning (stylelint result2)) && severityIs "warning" ruleSeverity
      then update_stylelint (set_stylelintWarning true) result2
      else result2 in
    let warningMessage :=
      buildWarningMessage message (default [] (messageArgs problem)) in
    Returned tt
      (warn warningMessage (warningProperties problem customUrl ruleSeverity) result3).

(** The condition of the [if] at line 33: [quiet && ruleSeverity !== 'error'] *)
Definition discardedByQuiet (problem : Problem) (st : Stylelint) : bool :=
  quiet st && negb (severityIs "error" (ruleSeverity problem st)).

(** The condition of the [if] at line 35:
    [isFn(fix) && metadata && !metadata.fixable] *)
Definition misusedFix (problem : Problem) (st : Stylelint) : bool :=
  is_Some_b (fix_ problem)
  && match ruleMetadata st !! ruleName problem with
     | Some metadata => negb (fixable metadata)
     | None => false
     end.

(** [report(problem)], with [problem.result] as the store. *)
Definition report (problem : Problem) (result : Result) : outcome Result unit :=
  let st := stylelint result in
  let cfg := default emptyConfig (config st) in
  let message := default (message problem) (customMessages st !! ruleName problem) in
  let customUrl := customUrls st !! ruleName problem in
  let ruleSeverity := ruleSeverity problem st in
  if discardedByQuiet problem st then Returned tt result
  else if misusedFix problem st
  then Thrown (Error (fixableErrorText (ruleName problem))) result
  else
    match startLine problem with
    | None => Thrown (Error (lineErrorText (ruleName problem))) result
    | Some startLine =>
        if startLine =? 0
        then Thrown (Error (lineErrorText (ruleName problem))) result
        else
          match isFixApplied problem startLine result with
          | Thrown e result' => Thrown e result'
          | Returned true result' => Returned tt result'
          | Returned false result' =>
              emit problem startLine ruleSeverity (disabledRanges st)
                (ignoreDisables cfg) message customUrl result'
          end
    end.

(** The configuration consulted by a call on [result]. *)
Definition configOf (result : Result) : Config :=
  default emptyConfig (config (stylelint result)).

(** The store after [addFixData] has recorded an outcome for the rule of
    [problem]. *)
Definition recorded (problem : Problem) (range : option Range) (fixed : bool)
    (result : Result) : Result :=
  update_stylelint
    (set_fixersData
       (addFixData (fixersData (stylelint result)) (ruleName problem) range fixed))
    result.

(** The store after a suppression hit has been pushed on
    [disabledWarnings]. *)
Definition hit (problem : Problem) (startLine : Z) (result : Result) : Result :=
  update_stylelint
    (fun st =>
       set_disabledWarnings
         (Some (default [] (disabledWarnings st)
                ++ [mkDisabledWarning (ruleName problem) startLine]))
         st)
    result.

(** The diagnostic that [report] hands to [result.warn] for [problem]. *)
Definition diagnostic (problem : Problem) (st : Stylelint) : string * WarningOptions :=
  (buildWarningMessage
     (default (message problem) (customMessages st !! ruleName problem))
     (default [] (messageArgs problem)),
   warningProperties problem (customUrls st !! ruleName problem)
     (ruleSeverity problem st)).

(** A text mentions a name when the name occurs in it. *)
Definition mentions (name text : string) : Prop :=
  exists pre post, text = pre +:+ name +:+ post.

(** The store after the two latches have been updated for a diagnostic
    of severity [ruleSeverity] (lines 67 to 73). *)
Definition latched (ruleSeverity : option string) (result : Result) : Result :=
  update_stylelint
    (fun st =>
       set_stylelintWarning
         (stylelintWarning st || severityIs "warning" ruleSeverity)
         (set_stylelintError
            (stylelintError st || severityIs "error" ruleSeverity) st))
    result.

(** The ways through the body of [report], each with the conditions
    under which it is taken and the outcome it ends in: the return of
    line 33, the two [throw]s of lines 36 and 47, an exception out of
    [isFixApplied], the return of line 52, the return of line 64, and
    the end of the body after [result.warn]. *)
Inductive reportCase (problem : Problem) (result : Result)
    : outcome Result unit -> Prop :=
| caseDiscarded :
    discardedByQuiet problem (stylelint result) = true ->
    reportCase problem result (Returned tt result)
| caseMisused :
    discardedByQuiet problem (stylelint result) = false ->
    misusedFix problem (stylelint result) = true ->
    reportCase problem result
      (Thrown (Error (fixableErrorText (ruleName problem))) result)
| caseNoLine :
    discardedByQuiet problem (stylelint result) = false ->
    misusedFix problem (stylelint result) = false ->
    startLine problem = None \/ startLine problem = Some 0 ->
    reportCase problem result
      (Thrown (Error (lineErrorText (ruleName problem))) result)
| caseGateThrows (L : Z) (callback : Doc -> Doc * option Range) (e : Exception) :
    discardedByQuiet problem (stylelint result) = false ->
    misusedFix problem (stylelint result) = false ->
    startLine problem = Some L -> L <> 0 ->
    fix_ problem = Some callback ->
    shouldFix (configOf result) (ruleName problem) = inl e ->
    reportCase problem result (Thrown e result)
| caseFixed (L : Z) (callback : Doc -> Doc * option Range) :
    discardedByQuiet problem (stylelint result) = false ->
    misusedFix problem (stylelint result) = false ->
    startLine problem = Some L -> L <> 0 ->
    fix_ problem = Some callback ->
    shouldFix (configOf result) (ruleName problem) = inr true ->
    mayFix true (configOf result) (ruleName problem) L
      (disabledRanges (stylelint result)) = true ->
    reportCase problem result
      (Returned tt
         (recorded problem (snd (callback (root result))) true
            (set_root (fst (callback (root result))) result)))
| caseSuppressed (L : Z) :
    discardedByQuiet problem (stylelint result) = false ->
    misusedFix problem (stylelint result) = false ->
    startLine problem = Some L -> L <> 0 ->
    isFixApplied problem L result
    = Returned false (recorded problem None false result) ->
    isDisabled (ruleName problem) L (disabledRanges (stylelint result)) = true ->
    ignoreDisables (configOf result) = false ->
    reportCase problem result
      (Returned tt (hit problem L (recorded problem None false result)))
| caseEmitted (L : Z) :
    discardedByQuiet problem (stylelint result) = false ->
    misusedFix problem (stylelint result) = false ->
    startLine problem = Some L -> L <> 0 ->
    isFixApplied problem L result
    = Returned false (recorded problem None false result) ->
    isDisabled (ruleName problem) L (disabledRanges (stylelint result)) = false
    \/ ignoreDisables (configOf result) = true ->
    reportCase problem result
      (Returned tt
         (warn (fst (diagnostic problem (stylelint result)))
            (snd (diagnostic problem (stylelint result)))
            (latched (ruleSeverity problem (stylelint result))
               (if isDisabled (ruleName problem) L (disabledRanges (stylelint result))
                then hit problem L (recorded problem None false result)
                else recorded problem None false result)))).

End Pipeline.
Arguments Result : clear implicits.
Arguments Problem : clear implicits.
Arguments report {Doc} problem result.

(** The store of an outcome, and an outcome with its store changed. *)
Definition store {S A : Type} (o : outcome S A) : S :=
  match o with Returned _ s => s | Thrown _ s => s end.

Definition onStore {S A : Type} (f : S -> S) (o : outcome S A) : outcome S A :=
  match o with
  | Returned a s => Returned a (f s)
  | Thrown e s => Thrown e (f s)
  end.

End Report.

(* ===================================================================== *)
(** ** [src/rules/function-space-after/index.js]                          *)
(* ===================================================================== *)

Module FunctionSpaceAfter.

Import Report.

Definition ruleName : string := "function-space-after".

(** A declaration of the style sheet: its [value] and the node that is
    handed to [report]. *)
Record Declaration : Type := mkDeclaration { value : string; decl_node : Node }.

(** Modelled from the spec: [styleSearch] is imported from the rule
    utilities, which are not among the sources; according to the
    specification the scan visits every occurrence of the delimiter
    character in the value text. The result lists [match.startIndex] of
    the successive calls of the callback. *)
Fixpoint styleSearch_from (source : string) (target : ascii) (i : nat) : list nat :=
  match source with
  | "" => []
  | String.String c rest =>
      (if Ascii.eqb c target then [i] else []) ++ styleSearch_from rest target (S i)
  end.

Definition styleSearch (source : string) (target : ascii) : list nat :=
  styleSearch_from source target 0.

Section Rule.

Context {Doc : Type}.

(** [isWhitespace] and [ruleMessages] are imported from the rule
    utilities, which are not among the sources: the rule is embedded over
    any whitespace test on a character that may be absent, and over any
    function from the rule name and a message text to the registered
    message. *)
Variable isWhitespace : option ascii -> bool.
Variable ruleMessages : string -> string -> string.

(** [messages.expected] and [messages.rejected] *)
Definition messages_expected : string :=
  ruleMessages ruleName ("Expected single space after " +:+ dq +:+ ")" +:+ dq).
Definition messages_rejected : string :=
  ruleMessages ruleName ("Unexpected whitespace after " +:+ dq +:+ ")" +:+ dq).

(** The argument of the two calls of [report] in [checkClosingParen]:
    [{ message, node, result, ruleName }]. *)
Definition problemFor (message : string) (n : Node) : Problem Doc :=
  {| Report.ruleName := ruleName;
     node := Some n;
     index := None; endIndex := None; line := None;
     start := None; end_ := None; word := None; fix_ := None;
     message := MessageString message;
     messageArgs := None; severity := None |}.

(** The decision of [checkClosingParen(source, index, node)]: the call of
    [report] it makes, if it makes one. *)
Definition violation (expectation : string) (source : string) (index : nat) (n : Node)
    : option (Problem Doc) :=
  let nextChar := String.get (index + 1) source in
  if String.eqb expectation "always" then
    if match nextChar with Some c => Ascii.eqb c " " | None => false end
       && negb (isWhitespace (String.get (index + 2) source))
    then None
    else if match nextChar with
            | Some c => Ascii.eqb c ")" || Ascii.eqb c ","
            | None => true
            end
    then None
    else Some (problemFor messages_expected n)
  else if String.eqb expectation "never" then
    if isWhitespace nextChar then Some (problemFor messages_rejected n) else None
  else None.

Definition checkClosingParen (expectation : string) (source : string) (index : nat)
    (n : Node) (result : Result Doc) : outcome (Result Doc) unit :=
  match violation expectation source index n with
  | Some problem => report problem result
  | None => Returned tt result
  end.

(** Iteration with a callback that may throw: the first exception ends
    the loop. *)
Fixpoint forEach {A : Type} (f : A -> Result Doc -> outcome (Result Doc) unit)
    (l : list A) (result : Result Doc) : outcome (Result Doc) unit :=
  match l with
  | [] => Returned tt result
  | a :: rest =>
      match f a result with
      | Returned _ result' => forEach f rest result'
      | Thrown e result' => Thrown e result'
      end
  end.

(** The function returned by the rule for [expectation], applied to the
    declarations of the style sheet and the result. *)
Definition rule (expectation : string) (css : list Declaration) (result : Result Doc)
    : outcome (Result Doc) unit :=
  forEach
    (fun decl =>
       forEach
         (fun startIndex =>
            checkClosingParen expectation (value decl) startIndex (decl_node decl))
         (styleSearch (value decl) ")"))
    css result.

End Rule.

End FunctionSpaceAfter.

(* ===================================================================== *)
(** ** The message formatter, as the specification words it                                            *)
(* ===================================================================== *)

Module Formatter.

(** The rendering of a template as the specification words it: the
    placeholders are filled from left to right, each with the string form
    of the next argument, in one pass over the template; the text put in
    is not looked at again. *)
Fixpoint renderTemplate (template : string) (args : list Js.value) : string :=
  match template with
  | "" => ""
  | String.String a t =>
      match args with
      | [] => template
      | arg :: rest =>
          match t with
          | String.String c after =>
              if Ascii.eqb a "%" && Js.is_ds c
              then Js.String arg +:+ renderTemplate after rest
              else String.String a (renderTemplate t args)
          | "" => String.String a ""
          end
      end
  end.

(** Does the character occur in the string? *)
Fixpoint hasChar (c : ascii) (s : string) : bool :=
  match s with
  | "" => false
  | String.String a t => Ascii.eqb a c || hasChar c t
  end.

(** Is the last character a percent sign? *)
Fixpoint endsWithPercent (s : string) : bool :=
  match s with
  | "" => false
  | String.String a "" => Ascii.eqb a "%"
  | String.String _ t => endsWithPercent t
  end.

(** An argument whose string form has neither a percent sign nor a
    dollar sign. *)
Definition plain (arg : Js.value) : Prop :=
  hasChar "%" (Js.String arg) = false /\ hasChar "$" (Js.String arg) = false.

(** A template in which no placeholder comes right after a percent
    sign. *)
Fixpoint tidy (template : string) : bool :=
  match template with
  | "" => true
  | String.String a t =>
      negb (Ascii.eqb a "%" && Report.is_Some_b (Js.placeholder_at t)) && tidy t
  end.

(** A text is clean when it holds no placeholder and does not end with a
    percent sign: appending to it cannot complete a placeholder. *)
Definition clean (x : string) : Prop :=
  Js.search x = None /\ endsWithPercent x = false.

End Formatter.

(* ===================================================================== *)
(** ** Sample inputs                                                      *)
(* ===================================================================== *)

Import Report.

Module Samples.

(** A document that counts the edits made to it. *)
Definition Doc : Type := nat.

(** A fix callback that edits the document and reports no range. *)
Definition sampleFix : Doc -> Doc * option Range := fun d => (S d, None).

Definition sampleConfig : Config :=
  {| defaultSeverity := None; ignoreDisables := false;
     fix_enabled := true; rules := None |}.

(** A result for the rule ["r"], configured as a warning, with lines 3
    to 5 disabled for every rule. *)
Definition sampleStylelint : Stylelint :=
  {| disabledRanges := {[ RULE_NAME_ALL := [mkDisabledRange 3 (Some 5) None] ]};
     quiet := false;
     ruleSeverities := {[ "r" := SeverityLiteral "warning" ]};
     config := Some sampleConfig;
     customMessages := ∅;
     customUrls := ∅;
     ruleMetadata := {[ "r" := mkRuleMeta true ]};
     disabledWarnings := None;
     stylelintError := false;
     stylelintWarning := false;
     fixersData := ∅ |}.

Definition sampleResult : Result Doc :=
  {| stylelint := sampleStylelint; messages := []; root := 0%nat |}.

(** A problem of rule ["r"] on line 1, without a fix callback. *)
Definition sampleProblem : Problem Doc :=
  {| ruleName := "r"; node := None; index := None; endIndex := None;
     line := Some 1; start := None; end_ := None; word := None;
     fix_ := None; message := MessageString "Unexpected %s";
     messageArgs := Some [Js.Str "x"]; severity := None |}.

Definition withLine (l : option Z) (p : Problem Doc) : Problem Doc :=
  {| ruleName := ruleName p; node := node p; index := index p;
     endIndex := endIndex p; line := l; start := start p; end_ := end_ p;
     word := word p; fix_ := fix_ p; message := message p;
     messageArgs := messageArgs p; severity := severity p |}.

Definition withFix (f : option (Doc -> Doc * option Range)) (p : Problem Doc) : Problem Doc :=
  {| ruleName := ruleName p; node := node p; index := index p;
     endIndex := endIndex p; line := line p; start := start p; end_ := end_ p;
     word := word p; fix_ := f; message := message p;
     messageArgs := messageArgs p; severity := severity p |}.

Definition withSeverity (s : option RuleSeverity) (p : Problem Doc) : Problem Doc :=
  {| ruleName := ruleName p; node := node p; index := index p;
     endIndex := endIndex p; line := line p; start := start p; end_ := end_ p;
     word := word p; fix_ := fix_ p; message := message p;
     messageArgs := messageArgs p; severity := s |}.

Definition set_config (c : option Config) (st : Stylelint) : Stylelint :=
  {| disabledRanges := disabledRanges st; quiet := quiet st;
     ruleSeverities := ruleSeverities st; config := c;
     customMessages := customMessages st; customUrls := customUrls st;
     ruleMetadata := ruleMetadata st; disabledWarnings := disabledWarnings st;
     stylelintError := stylelintError st; stylelintWarning := stylelintWarning st;
     fixersData := fixersData st |}.

Definition set_ruleMetadata (m : gmap string RuleMeta) (st : Stylelint) : Stylelint :=
  {| disabledRanges := disabledRanges st; quiet := quiet st;
     ruleSeverities := ruleSeverities st; config := config st;
     customMessages := customMessages st; customUrls := customUrls st;
     ruleMetadata := m; disabledWarnings := disabledWarnings st;
     stylelintError := stylelintError st; stylelintWarning := stylelintWarning st;
     fixersData := fixersData st |}.

(** The sample result with quiet mode on. *)
Definition quietResult : Result Doc := update_stylelint (set_quiet true) sampleResult.

(** The sample problem with a fix callback. *)
Definition fixProblem : Problem Doc := withFix (Some sampleFix) sampleProblem.

(** The sample result for a rule that is not fixable. *)
Definition notFixable (result : Result Doc) : Result Doc :=
  update_stylelint (set_ruleMetadata {[ "r" := mkRuleMeta false ]}) result.

(** The sample result with a per-rule settings map that has no entry for
    the rule ["r"]. *)
Definition noEntryResult : Result Doc :=
  update_stylelint
    (set_config
       (Some {| defaultSeverity := None; ignoreDisables := false;
                fix_enabled := true; rules := Some ∅ |}))
    sampleResult.

(** The sample result with suppressions ignored. *)
Definition ignoringResult : Result Doc :=
  update_stylelint
    (set_config
       (Some {| defaultSeverity := None; ignoreDisables := true;
                fix_enabled := false; rules := None |}))
    sampleResult.

(** A declaration node on line 7. *)
Definition sampleNode : Node :=
  {| rangeBy := fun _ _ =>
       mkNodeRange (Some (mkPosition 7 3)) (Some (mkPosition 7 40)) |}.

(** The first example value of the specification. *)
Definition sampleDecl : FunctionSpaceAfter.Declaration :=
  FunctionSpaceAfter.mkDeclaration "translate(10px)scale(2)" sampleNode.

(** A whitespace test: space, line feed, tab, carriage return and form
    feed are whitespace, an absent character is not. *)
Definition sampleIsWhitespace (c : option ascii) : bool :=
  match c with
  | Some c =>
      existsb (Ascii.eqb c) [" "; "010"; "009"; "013"; "012"]%char
  | None => false
  end.

(** A registration of messages that appends the rule name. *)
Definition sampleRuleMessages (name text : string) : string :=
  text +:+ " (" +:+ name +:+ ")".

(** A node that yields no position. *)
Definition lineLessNode : Node :=
  {| rangeBy := fun _ _ => mkNodeRange None None |}.

(** A declaration on that node whose value has a violation in mode
    [always]. *)
Definition lineLessDecl : FunctionSpaceAfter.Declaration :=
  FunctionSpaceAfter.mkDeclaration "a(1)b" lineLessNode.

(** A declaration that complies with mode [always]. *)
Definition compliantDecl : FunctionSpaceAfter.Declaration :=
  FunctionSpaceAfter.mkDeclaration "rgba(0,0,0,.5)" sampleNode.

(** The sample result with ranges of its own for the rule ["r"]. *)
Definition ownRangesTable : gmap string (list DisabledRange) :=
  {[ "r" := [mkDisabledRange 10 None None] ]}.

(** The sample problem with severity [error]. *)
Definition errorProblem : Problem Doc :=
  withSeverity (Some (SeverityLiteral "error")) sampleProblem.

End Samples.

(* ===================================================================== *)
(** ** The suppression index                                              *)
(* ===================================================================== *)

Section SuppressionIndex.

Lemma rangeCovers_true ruleName startLine range :
  rangeCovers ruleName startLine range = true <->
  dr_start range <= startLine
  /\ (dr_end range = None \/ exists e, dr_end range = Some e /\ e >= startLine)
  /\ (dr_rules range = None \/ exists rs, dr_rules range = Some rs /\ In ruleName rs).
Proof.
  unfold rangeCovers. rewrite !andb_true_iff, Z.leb_le.
  destruct (dr_end range) as [e|], (dr_rules range) as [rs|];
    rewrite ?Z.geb_le, ?existsb_exists; split.
  - intros [[H1 H2] (x & Hin & Heq)]. apply String.eqb_eq in Heq. subst x.
    split; [assumption|]. split; right; eauto. eexists; split; eauto. lia.
  - intros (H1 & [?|(e' & [= <-] & H2)] & [?|(rs' & [= <-] & H3)]); try discriminate.
    split; [split; [assumption | lia]|]. exists ruleName. split; [assumption|].
    apply String.eqb_refl.
  - intros [[H1 H2] _]. split; [assumption|]. split; [right | left; reflexivity].
    eexists; split; eauto. lia.
  - intros (H1 & [?|(e' & [= <-] & H2)] & _); try discriminate.
    split; [split; [assumption | lia] | reflexivity].
  - intros [[H1 _] (x & Hin & Heq)]. apply String.eqb_eq in Heq. subst x.
    split; [assumption|]. split; [left; reflexivity | right; eauto].
  - intros (H1 & _ & [?|(rs' & [= <-] & H3)]); try discriminate.
    split; [split; [assumption | reflexivity]|]. exists ruleName. split; [assumption|].
    apply String.eqb_refl.
  - intros [[H1 _] _]. split; [assumption|]. split; left; reflexivity.
  - intros (H1 & _). repeat split; assumption.
Qed.

Lemma isDisabled_loop_true ruleName startLine ranges :
  isDisabled_loop ruleName startLine ranges = true <->
  exists range, In range ranges /\ rangeCovers ruleName startLine range = true.
Proof.
  induction ranges as [|range rest IH]; simpl.
  - split; [discriminate | intros (? & [] & _)].
  - destruct (rangeCovers ruleName startLine range) eqn:Hc.
    + split; [|reflexivity]. intros _. exists range. split; [left; reflexivity | assumption].
    + rewrite IH. split.
      * intros (x & Hin & Hx). exists x. split; [right; assumption | assumption].
      * intros (x & [<-|Hin] & Hx); [congruence|]. exists x. split; assumption.
Qed.

(** C4. [isDisabled] answers [true] exactly when some range of the
    sequence found under the rule's own key, or under the blanket key
    when the rule's own key is absent, starts at or before the line, has
    no end or ends at or after the line, and has no rule list or one that
    contains the rule. *)
Theorem isDisabled_iff_some_range_covers
    (ruleName : string) (startLine : Z) (disabledRanges : gmap string (list DisabledRange)) :
  isDisabled ruleName startLine disabledRanges = true <->
  exists ranges range,
    (disabledRanges !! ruleName = Some ranges
     \/ (disabledRanges !! ruleName = None
         /\ disabledRanges !! RULE_NAME_ALL = Some ranges))
    /\ In range ranges
    /\ dr_start range <= startLine
    /\ (dr_end range = None \/ exists e, dr_end range = Some e /\ e >= startLine)
    /\ (dr_rules range = None \/ exists rs, dr_rules range = Some rs /\ In ruleName rs).
Proof.
  unfold isDisabled, rangesFor. rewrite isDisabled_loop_true. split.
  - intros (range & Hin & Hc). apply rangeCovers_true in Hc.
    destruct (disabledRanges !! ruleName) as [own|] eqn:Hown.
    + exists own, range. split; [left; reflexivity|]. split; assumption.
    + destruct (disabledRanges !! RULE_NAME_ALL) as [blanket|] eqn:Hall.
      * exists blanket, range. split; [right; split; reflexivity|]. split; assumption.
      * destruct Hin.
  - intros (ranges & range & Hkey & Hin & Hc).
    exists range. split; [|apply rangeCovers_true; assumption].
    destruct Hkey as [->|[-> ->]]; assumption.
Qed.

End SuppressionIndex.

(* ===================================================================== *)
(** ** The pipeline                                                       *)
(* ===================================================================== *)

Section PipelineFacts.

Context {Doc : Type}.
Implicit Types (p : Problem Doc) (r : Result Doc).

Lemma report_discarded p r :
  discardedByQuiet p (stylelint r) = true -> report p r = Returned tt r.
Proof. intros H. unfold report. rewrite H. reflexivity. Qed.

Lemma report_misused p r :
  discardedByQuiet p (stylelint r) = false ->
  misusedFix p (stylelint r) = true ->
  report p r = Thrown (Error (fixableErrorText (ruleName p))) r.
Proof. intros H1 H2. unfold report. rewrite H1, H2. reflexivity. Qed.

Lemma report_no_line p r :
  discardedByQuiet p (stylelint r) = false ->
  misusedFix p (stylelint r) = false ->
  startLine p = None \/ startLine p = Some 0 ->
  report p r = Thrown (Error (lineErrorText (ruleName p))) r.
Proof.
  intros H1 H2 [H3|H3]; unfold report; rewrite H1, H2, H3; reflexivity.
Qed.

Lemma report_gate p r L :
  discardedByQuiet p (stylelint r) = false ->
  misusedFix p (stylelint r) = false ->
  startLine p = Some L -> L <> 0 ->
  report p r =
  match isFixApplied p L r with
  | Thrown e r' => Thrown e r'
  | Returned true r' => Returned tt r'
  | Returned false r' =>
      emit p L (ruleSeverity p (stylelint r)) (disabledRanges (stylelint r))
        (ignoreDisables (configOf r))
        (default (message p) (customMessages (stylelint r) !! ruleName p))
        (customUrls (stylelint r) !! ruleName p) r'
  end.
Proof.
  intros H1 H2 H3 H4. unfold report. rewrite H1, H2, H3.
  apply Z.eqb_neq in H4. rewrite H4. reflexivity.
Qed.

Lemma isFixApplied_no_callback p L r :
  fix_ p = None -> isFixApplied p L r = Returned false (recorded p None false r).
Proof. intros H. unfold isFixApplied. rewrite H. reflexivity. Qed.

Lemma isFixApplied_callback p L r f should :
  fix_ p = Some f ->
  shouldFix (configOf r) (ruleName p) = inr should ->
  isFixApplied p L r =
  if mayFix should (configOf r) (ruleName p) L (disabledRanges (stylelint r))
  then Returned true (recorded p (snd (f (root r))) true (set_root (fst (f (root r))) r))
  else Returned false (recorded p None false r).
Proof.
  intros Hf Hs. unfold isFixApplied. fold (configOf r). rewrite Hf, Hs.
  destruct (mayFix _ _ _ _ _); [|reflexivity].
  destruct (f (root r)) as [d rng]. reflexivity.
Qed.

Lemma isFixApplied_throws p L r f e :
  fix_ p = Some f ->
  shouldFix (configOf r) (ruleName p) = inl e ->
  isFixApplied p L r = Thrown e r.
Proof.
  intros Hf Hs. unfold isFixApplied. fold (configOf r). rewrite Hf, Hs. reflexivity.
Qed.

(** When the gate answers [false] it has recorded an unapplied fix and
    done nothing else. *)
Lemma isFixApplied_false_inv p L r r' :
  isFixApplied p L r = Returned false r' -> r' = recorded p None false r.
Proof.
  unfold isFixApplied. fold (configOf r).
  destruct (fix_ p) as [f|]; [|intros [= <-]; reflexivity].
  destruct (shouldFix _ _) as [e|should]; [discriminate|].
  destruct (mayFix _ _ _ _ _).
  - destruct (f (root r)); discriminate.
  - intros [= <-]. reflexivity.
Qed.

End PipelineFacts.

Section PipelineClaims.

Context {Doc : Type}.
Implicit Types (p : Problem Doc) (r : Result Doc).

Lemma severityIs_false literal sev :
  severityIs literal sev = false <-> sev <> Some literal.
Proof.
  destruct sev as [s|]; simpl.
  - rewrite String.eqb_neq. split; [intros H [= ->]; auto | intros H ->; auto].
  - split; [discriminate | reflexivity].
Qed.

Lemma severityIs_true literal sev :
  severityIs literal sev = true <-> sev = Some literal.
Proof.
  destruct sev as [s|]; simpl.
  - rewrite String.eqb_eq. split; [intros ->; reflexivity | intros [= ->]; reflexivity].
  - split; discriminate.
Qed.

Lemma isFixApplied_set_quiet p L r b :
  isFixApplied p L (update_stylelint (set_quiet b) r)
  = onStore (update_stylelint (set_quiet b)) (isFixApplied p L r).
Proof.
  destruct r as [st msgs d]. destruct st. unfold isFixApplied. simpl.
  destruct (fix_ p) as [f|]; [|reflexivity].
  destruct (shouldFix _ _) as [e|should]; [reflexivity|].
  destruct (mayFix _ _ _ _ _); [|reflexivity].
  destruct (f d). reflexivity.
Qed.

Lemma emit_set_quiet p L sev dr ign msg url r b :
  emit p L sev dr ign msg url (update_stylelint (set_quiet b) r)
  = onStore (update_stylelint (set_quiet b)) (emit p L sev dr ign msg url r).
Proof.
  destruct r as [st msgs d]. destruct st as [? ? ? ? ? ? ? ? err wrn ?].
  unfold emit. simpl.
  destruct (isDisabled _ _ _), ign, err, wrn,
    (severityIs "error" sev), (severityIs "warning" sev); reflexivity.
Qed.

(** C6. With quiet mode on, a candidate whose resolved severity is not
    [error] is dropped and the store is left exactly as it was; a
    candidate whose resolved severity is [error] is processed as it is
    with quiet mode off. *)
Theorem quiet_mode_filter p r :
  (quiet (stylelint r) = true ->
   ruleSeverity p (stylelint r) <> Some "error" ->
   report p r = Returned tt r)
  /\ (ruleSeverity p (stylelint r) = Some "error" ->
      report p (update_stylelint (set_quiet true) r)
      = onStore (update_stylelint (set_quiet true))
          (report p (update_stylelint (set_quiet false) r))).
Proof.
  split.
  - intros Hq Hsev. apply report_discarded. unfold discardedByQuiet.
    rewrite Hq. apply severityIs_false in Hsev. rewrite Hsev. reflexivity.
  - intros Hsev. apply severityIs_true in Hsev.
    assert (Hd : forall b, discardedByQuiet p (stylelint (update_stylelint (set_quiet b) r)) = false).
    { intros b. unfold discardedByQuiet.
      replace (ruleSeverity p (stylelint (update_stylelint (set_quiet b) r)))
        with (ruleSeverity p (stylelint r)) by reflexivity.
      rewrite Hsev. apply andb_false_r. }
    unfold report. rewrite !Hd.
    replace (misusedFix p (stylelint (update_stylelint (set_quiet true) r)))
      with (misusedFix p (stylelint r)) by reflexivity.
    replace (misusedFix p (stylelint (update_stylelint (set_quiet false) r)))
      with (misusedFix p (stylelint r)) by reflexivity.
    destruct (misusedFix p (stylelint r)).
    { destruct r as [st msgs d]; destruct st; reflexivity. }
    destruct (startLine p) as [L|].
    2:{ destruct r as [st msgs d]; destruct st; reflexivity. }
    destruct (L =? 0).
    { destruct r as [st msgs d]; destruct st; reflexivity. }
    rewrite !isFixApplied_set_quiet.
    destruct (isFixApplied p L r) as [[|] r'|e r']; simpl.
    + destruct r' as [st msgs d]; destruct st; reflexivity.
    + rewrite !emit_set_quiet.
      replace (disabledRanges (stylelint (update_stylelint (set_quiet true) r)))
        with (disabledRanges (stylelint r)) by reflexivity.
      replace (disabledRanges (stylelint (update_stylelint (set_quiet false) r)))
        with (disabledRanges (stylelint r)) by reflexivity.
      match goal with
      | |- ?lhs = onStore _ (onStore _ ?e) =>
          change lhs with (onStore (update_stylelint (set_quiet true)) e);
          destruct e as [u r''|e' r'']
      end; destruct r'' as [st msgs d]; destruct st; reflexivity.
    + destruct r' as [st msgs d]; destruct st; reflexivity.
Qed.

Lemma not_discarded p r :
  quiet (stylelint r) = false \/ ruleSeverity p (stylelint r) = Some "error" ->
  discardedByQuiet p (stylelint r) = false.
Proof.
  unfold discardedByQuiet. intros [->|H]; [reflexivity|].
  apply severityIs_true in H. rewrite H. apply andb_false_r.
Qed.

Lemma fixableErrorText_mentions name : mentions name (fixableErrorText name).
Proof. exists ("The " +:+ dq). eexists. reflexivity. Qed.

Lemma lineErrorText_mentions name : mentions name (lineErrorText name).
Proof. exists ("The " +:+ dq). eexists. reflexivity. Qed.

(** C1, as the code has it. A problem that carries a fix callback, for a
    rule whose metadata is present and does not declare it fixable,
    makes [report] throw the error that names the rule, with the store
    untouched (so nothing is emitted), whenever the quiet filter does not
    drop the problem first: quiet mode is off or the resolved severity is
    [error]. *)
Theorem misused_fix_callback_raises p r callback metadata :
  fix_ p = Some callback ->
  ruleMetadata (stylelint r) !! ruleName p = Some metadata ->
  fixable metadata = false ->
  quiet (stylelint r) = false \/ ruleSeverity p (stylelint r) = Some "error" ->
  report p r = Thrown (Error (fixableErrorText (ruleName p))) r
  /\ mentions (ruleName p) (fixableErrorText (ruleName p)).
Proof.
  intros Hf Hm Hfix Hq. split; [|apply fixableErrorText_mentions].
  apply report_misused; [apply not_discarded; assumption|].
  unfold misusedFix. rewrite Hf, Hm, Hfix. reflexivity.
Qed.

(** C2, as the code has it. A problem with neither an explicit line nor a
    node whose range has a start makes [report] throw the error that
    names the rule, with the store untouched, whenever the two earlier
    checks let it through: the quiet filter does not drop it and the
    fix callback is not misused. *)
Theorem unresolvable_line_raises p r :
  line p = None ->
  (forall n, node p = Some n -> nr_start (rangeBy n (index p) (endIndex p)) = None) ->
  quiet (stylelint r) = false \/ ruleSeverity p (stylelint r) = Some "error" ->
  misusedFix p (stylelint r) = false ->
  report p r = Thrown (Error (lineErrorText (ruleName p))) r
  /\ mentions (ruleName p) (lineErrorText (ruleName p)).
Proof.
  intros Hl Hn Hq Hm. split; [|apply lineErrorText_mentions].
  apply report_no_line; [apply not_discarded; assumption | assumption |].
  left. unfold startLine. rewrite Hl.
  destruct (node p) as [n|]; [rewrite (Hn n eq_refl)|]; reflexivity.
Qed.

(** The autofix gate, wherever its computation of [shouldFix] does not
    throw: one outcome is appended under the rule, unapplied when there
    is no callback or [mayFix] is false, applied and carrying the range
    returned by the callback, which has been run on the document, when
    [mayFix] is true. *)
Lemma gate_records_one_outcome p L r should :
  (fix_ p = None \/ shouldFix (configOf r) (ruleName p) = inr should) ->
  let may :=
    is_Some_b (fix_ p)
    && mayFix should (configOf r) (ruleName p) L (disabledRanges (stylelint r)) in
  exists range r',
    isFixApplied p L r = Returned may r'
    /\ fixersData (stylelint r')
       = <[ruleName p := default [] (fixersData (stylelint r) !! ruleName p)
                         ++ [mkFixerData range may]]> (fixersData (stylelint r))
    /\ messages r' = messages r
    /\ (may = false -> range = None /\ root r' = root r)
    /\ (may = true -> exists callback,
          fix_ p = Some callback
          /\ callback (root r) = (root r', range)).
Proof.
  intros H. destruct (fix_ p) as [f|] eqn:Hf; simpl.
  - destruct H as [H|H]; [discriminate|].
    rewrite (isFixApplied_callback p L r f should Hf H).
    destruct (mayFix _ _ _ _ _).
    + destruct (f (root r)) as [d rng] eqn:Hcall. exists rng. eexists. simpl.
      split; [reflexivity|]. split; [reflexivity|]. split; [reflexivity|].
      split; [discriminate|]. intros _. exists f. split; [reflexivity | assumption].
    + exists None. eexists. split; [reflexivity|]. split; [reflexivity|].
      split; [reflexivity|]. split; [intros _; split; reflexivity | discriminate].
  - rewrite (isFixApplied_no_callback p L r Hf).
    exists None. eexists. split; [reflexivity|]. split; [reflexivity|].
    split; [reflexivity|]. split; [intros _; split; reflexivity | discriminate].
Qed.

(** C10. With a fix callback, the global fix flag on and a per-rule
    settings map that has no entry for the rule, the gate throws a
    [TypeError] while computing [shouldFix]: it neither answers nor
    touches the store. *)
Theorem gate_throws_without_rule_entry p L r callback cfg settings :
  fix_ p = Some callback ->
  config (stylelint r) = Some cfg ->
  fix_enabled cfg = true ->
  rules cfg = Some settings ->
  settings !! ruleName p = None ->
  isFixApplied p L r
  = Thrown (TypeError "Cannot read properties of undefined (reading '1')") r.
Proof.
  intros Hf Hc He Hr Hs. apply isFixApplied_throws with (f := callback); [assumption|].
  unfold configOf. rewrite Hc. simpl.
  unfold shouldFix, ruleDisablesFix. rewrite He, Hr, Hs. reflexivity.
Qed.

(** C7. A candidate that gets past the gate and whose rule and line are
    suppressed has its hit pushed on [disabledWarnings] whatever
    [ignoreDisables] is, and its diagnostic is appended to the messages
    exactly when [ignoreDisables] is set. *)
Theorem suppressed_candidate_hit_then_emission p r L r' :
  discardedByQuiet p (stylelint r) = false ->
  misusedFix p (stylelint r) = false ->
  startLine p = Some L -> L <> 0 ->
  isFixApplied p L r = Returned false r' ->
  isDisabled (ruleName p) L (disabledRanges (stylelint r)) = true ->
  exists r'',
    report p r = Returned tt r''
    /\ disabledWarnings (stylelint r'')
       = Some (default [] (disabledWarnings (stylelint r))
               ++ [mkDisabledWarning (ruleName p) L])
    /\ messages r''
       = if ignoreDisables (configOf r)
         then messages r ++ [diagnostic p (stylelint r)]
         else messages r.
Proof.
  intros Hq Hm Hl HL Hgate Hdis.
  rewrite (report_gate p r L Hq Hm Hl HL), Hgate.
  apply isFixApplied_false_inv in Hgate. subst r'.
  unfold emit. rewrite Hdis.
  destruct r as [st msgs d]. destruct st as [? ? ? ? ? ? ? ? err wrn ?].
  destruct (ignoreDisables _); simpl.
  - destruct err, wrn, (severityIs "error" _), (severityIs "warning" _); simpl;
      eexists; (split; [reflexivity|]); split; reflexivity.
  - eexists. split; [reflexivity|]. split; reflexivity.
Qed.

(** C5, as the code has it. The stages run in this order: severity
    resolution and the quiet filter; the check for a misused fix
    callback; line resolution; the autofix gate, which consults the
    suppression index and ends the call when it applies the fix; the
    suppression check for reporting; the latches; the message formatter
    and the emitter. In particular a fix is applied only to a candidate
    that the quiet filter has let through. *)
Theorem pipeline_stage_order p r :
  (discardedByQuiet p (stylelint r) = true -> report p r = Returned tt r)
  /\ (discardedByQuiet p (stylelint r) = false ->
      (misusedFix p (stylelint r) = true ->
       report p r = Thrown (Error (fixableErrorText (ruleName p))) r)
      /\ (misusedFix p (stylelint r) = false ->
          (startLine p = None \/ startLine p = Some 0 ->
           report p r = Thrown (Error (lineErrorText (ruleName p))) r)
          /\ (forall L, startLine p = Some L -> L <> 0 ->
              (forall callback,
                  fix_ p = Some callback ->
                  shouldFix (configOf r) (ruleName p) = inr true ->
                  mayFix true (configOf r) (ruleName p) L (disabledRanges (stylelint r)) = true ->
                  report p r
                  = Returned tt
                      (recorded p (snd (callback (root r))) true
                         (set_root (fst (callback (root r))) r)))
              /\ (forall r',
                  isFixApplied p L r = Returned false r' ->
                  (isDisabled (ruleName p) L (disabledRanges (stylelint r)) = true ->
                   ignoreDisables (configOf r) = false ->
                   report p r = Returned tt (hit p L r'))
                  /\ (isDisabled (ruleName p) L (disabledRanges (stylelint r)) = false
                      \/ ignoreDisables (configOf r) = true ->
                      exists r'',
                        report p r = Returned tt r''
                        /\ messages r'' = messages r ++ [diagnostic p (stylelint r)]
                        /\ stylelintError (stylelint r'')
                           = stylelintError (stylelint r)
                             || severityIs "error" (ruleSeverity p (stylelint r))
                        /\ stylelintWarning (stylelint r'')
                           = stylelintWarning (stylelint r)
                             || severityIs "warning" (ruleSeverity p (stylelint r))))))).
Proof.
  split; [apply report_discarded|]. intros Hq.
  split; [apply report_misused; assumption|]. intros Hm.
  split; [apply report_no_line; assumption|]. intros L Hl HL.
  rewrite (report_gate p r L Hq Hm Hl HL). split.
  - intros f Hf Hs Hmay. rewrite (isFixApplied_callback p L r f true Hf Hs), Hmay.
    reflexivity.
  - intros r' Hgate. rewrite Hgate. apply isFixApplied_false_inv in Hgate. subst r'.
    unfold emit. split.
    + intros Hdis Hign. rewrite Hdis, Hign. reflexivity.
    + intros Hor.
      destruct r as [st msgs d]. destruct st as [? ? ? ? ? ? ? ? err wrn ?].
      simpl in *.
      destruct (isDisabled _ _ _), (ignoreDisables _);
        try (destruct Hor; discriminate); simpl;
        destruct err, wrn, (severityIs "error" _), (severityIs "warning" _); simpl;
        eexists; (split; [reflexivity|]); repeat split.
Qed.

End PipelineClaims.

(* ===================================================================== *)
(** ** The pipeline on the sample inputs                                  *)
(* ===================================================================== *)

Section PipelineExamples.

Import Samples.

(** The quiet filter on the sample problem: dropped as a warning, and
    processed alike with quiet mode on and off as an error. *)
Lemma quiet_mode_filter_witness :
  report sampleProblem quietResult = Returned tt quietResult
  /\ report errorProblem (update_stylelint (set_quiet true) sampleResult)
     = onStore (update_stylelint (set_quiet true))
         (report errorProblem (update_stylelint (set_quiet false) sampleResult)).
Proof.
  split.
  - apply (proj1 (quiet_mode_filter sampleProblem quietResult)).
    + reflexivity.
    + vm_compute. discriminate.
  - apply (proj2 (quiet_mode_filter errorProblem sampleResult)). reflexivity.
Defined.

(** C1 fails as stated: under quiet mode a warning-level problem with a
    fix callback for a rule that is not fixable is dropped without any
    error. *)
Lemma misused_fix_callback_counterexample :
  ~ (forall (p : Problem Doc) (r : Result Doc) callback metadata,
        fix_ p = Some callback ->
        ruleMetadata (stylelint r) !! ruleName p = Some metadata ->
        fixable metadata = false ->
        exists r', report p r = Thrown (Error (fixableErrorText (ruleName p))) r').
Proof.
  intros H.
  destruct (H fixProblem (notFixable quietResult) sampleFix (mkRuleMeta false)
              eq_refl eq_refl eq_refl) as [r' Hr'].
  vm_compute in Hr'. discriminate.
Qed.

(** With quiet mode off, the fix callback on the rule that is not fixable
    is refused. *)
Lemma misused_fix_callback_witness :
  report fixProblem (notFixable sampleResult)
  = Thrown (Error (fixableErrorText "r")) (notFixable sampleResult)
  /\ mentions "r" (fixableErrorText "r").
Proof.
  apply (misused_fix_callback_raises fixProblem (notFixable sampleResult)
           sampleFix (mkRuleMeta false)).
  - reflexivity.
  - reflexivity.
  - reflexivity.
  - left. reflexivity.
Defined.

(** C2 fails as stated: under quiet mode a warning-level problem with
    neither line nor node is dropped without any error. *)
Lemma unresolvable_line_counterexample :
  ~ (forall (p : Problem Doc) (r : Result Doc),
        line p = None -> node p = None ->
        exists r', report p r = Thrown (Error (lineErrorText (ruleName p))) r').
Proof.
  intros H.
  destruct (H (withLine None sampleProblem) quietResult eq_refl eq_refl) as [r' Hr'].
  vm_compute in Hr'. discriminate.
Qed.

(** With quiet mode off, the sample problem without line and node is
    refused. *)
Lemma unresolvable_line_witness :
  report (withLine None sampleProblem) sampleResult
  = Thrown (Error (lineErrorText "r")) sampleResult
  /\ mentions "r" (lineErrorText "r").
Proof.
  apply (unresolvable_line_raises (withLine None sampleProblem) sampleResult).
  - reflexivity.
  - intros n Hn. simpl in Hn. discriminate.
  - left. reflexivity.
  - reflexivity.
Defined.

(** C5 fails as stated: under quiet mode a warning-level candidate for
    which [mayFix] holds is dropped by the quiet filter, and its fix
    callback is never run: the document is left as it was. *)
Lemma fix_before_quiet_filter_counterexample :
  ~ (forall (p : Problem Doc) (r : Result Doc) L callback,
        fix_ p = Some callback ->
        misusedFix p (stylelint r) = false ->
        startLine p = Some L -> L <> 0 ->
        shouldFix (configOf r) (ruleName p) = inr true ->
        mayFix true (configOf r) (ruleName p) L (disabledRanges (stylelint r)) = true ->
        exists r', report p r = Returned tt r' /\ root r' = fst (callback (root r))).
Proof.
  intros H.
  destruct (H fixProblem quietResult 1 sampleFix eq_refl eq_refl eq_refl)
    as (r' & Hr' & Hroot); [lia | reflexivity | reflexivity |].
  vm_compute in Hr'. injection Hr' as <-. vm_compute in Hroot. discriminate.
Qed.

(** The sample problem with a fix callback: dropped under quiet mode,
    fixed and consumed otherwise. *)
Lemma pipeline_stage_order_witness :
  report fixProblem quietResult = Returned tt quietResult
  /\ report fixProblem sampleResult
     = Returned tt (recorded fixProblem None true (set_root 1%nat sampleResult)).
Proof.
  split.
  - apply (proj1 (pipeline_stage_order fixProblem quietResult)). reflexivity.
  - destruct (proj2 (pipeline_stage_order fixProblem sampleResult) eq_refl)
      as [_ Hstages].
    destruct (Hstages eq_refl) as [_ Hline].
    destruct (Hline 1 eq_refl ltac:(lia)) as [Hfix _].
    apply (Hfix sampleFix); reflexivity.
Defined.

(** Line 4 is suppressed: with suppressions ignored the hit is recorded
    and the diagnostic is emitted all the same. *)
Lemma suppressed_candidate_hit_then_emission_witness :
  exists r'',
    report (withLine (Some 4) sampleProblem) ignoringResult = Returned tt r''
    /\ disabledWarnings (stylelint r'') = Some [mkDisabledWarning "r" 4]
    /\ messages r''
       = [diagnostic (withLine (Some 4) sampleProblem) (stylelint ignoringResult)].
Proof.
  apply (suppressed_candidate_hit_then_emission
           (withLine (Some 4) sampleProblem) ignoringResult 4
           (recorded (withLine (Some 4) sampleProblem) None false ignoringResult)).
  - reflexivity.
  - reflexivity.
  - reflexivity.
  - lia.
  - reflexivity.
  - reflexivity.
Defined.

(** The gate on the result whose settings map has no entry for the rule. *)
Lemma gate_throws_without_rule_entry_witness :
  isFixApplied fixProblem 1 noEntryResult
  = Thrown (TypeError "Cannot read properties of undefined (reading '1')") noEntryResult.
Proof.
  apply (gate_throws_without_rule_entry fixProblem 1 noEntryResult sampleFix
           {| defaultSeverity := None; ignoreDisables := false;
              fix_enabled := true; rules := Some ∅ |} ∅).
  - reflexivity.
  - reflexivity.
  - reflexivity.
  - reflexivity.
  - reflexivity.
Defined.

(** C3 on a result whose per-rule settings map has no entry for the
    rule: the problem reaches the gate, and [report] ends with the
    [TypeError] thrown there; no outcome is recorded under the rule. *)
Theorem gate_records_nothing_without_rule_entry :
  discardedByQuiet fixProblem (stylelint noEntryResult) = false
  /\ misusedFix fixProblem (stylelint noEntryResult) = false
  /\ startLine fixProblem = Some 1
  /\ report fixProblem noEntryResult
     = Thrown (TypeError "Cannot read properties of undefined (reading '1')") noEntryResult
  /\ fixersData (stylelint (store (report fixProblem noEntryResult))) !! "r" = None.
Proof. repeat split. Qed.

End PipelineExamples.

(* ===================================================================== *)
(** ** The message formatter: facts                                       *)
(* ===================================================================== *)

Section FormatterFacts.

Import Formatter.

Lemma append_cons a (x y : string) : String.String a x +:+ y = String.String a (x +:+ y).
Proof. reflexivity. Qed.

Lemma append_nil_l (y : string) : "" +:+ y = y.
Proof. reflexivity. Qed.

Lemma append_assoc (x y z : string) : (x +:+ y) +:+ z = x +:+ (y +:+ z).
Proof.
  induction x as [|a x IH]; [reflexivity|].
  rewrite !append_cons, IH. reflexivity.
Qed.

Lemma getSubstitution_plain m pre suf s :
  hasChar "$" s = false -> Js.getSubstitution m pre suf s = s.
Proof.
  induction s as [|a t IH]; simpl; [reflexivity|].
  intros H. apply orb_false_iff in H as [Ha Ht]. rewrite Ha, (IH Ht). reflexivity.
Qed.

Lemma search_cons a t :
  Js.search (String.String a t) =
  match Js.placeholder_at (String.String a t) with
  | Some (c, rest) => Some ("", String.String "%" (String.String c ""), rest)
  | None =>
      match Js.search t with
      | Some (pre, m, suf) => Some (String.String a pre, m, suf)
      | None => None
      end
  end.
Proof. reflexivity. Qed.

(** What a successful search returns: the text splits around the
    matched placeholder, and the part before it has no placeholder. *)
Lemma search_Some s pre m suf :
  Js.search s = Some (pre, m, suf) ->
  s = pre +:+ m +:+ suf
  /\ Js.search pre = None
  /\ (exists c, m = String.String "%" (String.String c "") /\ Js.is_ds c = true).
Proof.
  revert pre. induction s as [|a t IH]; intros pre; [discriminate|].
  rewrite search_cons.
  destruct (Js.placeholder_at (String.String a t)) as [[c rest]|] eqn:Hph.
  - intros [= <- <- <-]. unfold Js.placeholder_at in Hph.
    destruct t as [|c' t']; [discriminate|].
    destruct (Ascii.eqb a "%" && Js.is_ds c') eqn:Hc; [|discriminate].
    injection Hph as <- <-. apply andb_true_iff in Hc as [Ha Hc].
    apply Ascii.eqb_eq in Ha. subst a. repeat split; eauto.
  - destruct (Js.search t) as [[[p' m'] q']|] eqn:Hs; [|discriminate].
    intros [= <- <- <-]. destruct (IH p' eq_refl) as (Heq & Hnone & Hm).
    split; [rewrite append_cons, <- Heq; reflexivity|]. split; [|assumption].
    rewrite search_cons, Hnone.
    destruct (Js.placeholder_at (String.String a p')) as [[c rest]|] eqn:Hp'; [|reflexivity].
    exfalso. unfold Js.placeholder_at in Hph, Hp'.
    destruct p' as [|b p'']; [discriminate|].
    rewrite Heq, append_cons in Hph.
    destruct (Ascii.eqb a "%" && Js.is_ds b); discriminate.
Qed.

Lemma search_None_placeholder s :
  Js.search s = None -> Js.placeholder_at s = None.
Proof.
  destruct s as [|a t]; [reflexivity|]. rewrite search_cons.
  destruct (Js.placeholder_at (String.String a t)) as [[c rest]|]; [discriminate | reflexivity].
Qed.

Lemma search_None_tail a t : Js.search (String.String a t) = None -> Js.search t = None.
Proof.
  rewrite search_cons.
  destruct (Js.placeholder_at (String.String a t)) as [[c rest]|]; [discriminate|].
  destruct (Js.search t) as [[[? ?] ?]|]; [discriminate | reflexivity].
Qed.

Lemma search_Some_empty s m suf :
  Js.search s = Some ("", m, suf) -> is_Some_b (Js.placeholder_at s) = true.
Proof.
  destruct s as [|a t]; [discriminate|]. rewrite search_cons.
  destruct (Js.placeholder_at (String.String a t)) as [[c rest]|]; [reflexivity|].
  destruct (Js.search t) as [[[? ?] ?]|]; discriminate.
Qed.

Lemma renderTemplate_cons a t arg rest :
  renderTemplate (String.String a t) (arg :: rest) =
  match Js.placeholder_at (String.String a t) with
  | Some (_, after) => Js.String arg +:+ renderTemplate after rest
  | None => String.String a (renderTemplate t (arg :: rest))
  end.
Proof.
  destruct t as [|c after]; [reflexivity|]. simpl.
  destruct (Ascii.eqb a "%" && Js.is_ds c); reflexivity.
Qed.

Lemma renderTemplate_nil template : renderTemplate template [] = template.
Proof. destruct template; reflexivity. Qed.

(** A template without placeholders is rendered as it is, whatever the
    arguments. *)
Lemma renderTemplate_no_placeholder template args :
  Js.search template = None -> renderTemplate template args = template.
Proof.
  destruct args as [|arg rest]; [intros _; apply renderTemplate_nil|].
  induction template as [|a t IH]; [reflexivity|]. intros H.
  rewrite renderTemplate_cons, (search_None_placeholder _ H).
  rewrite (IH (search_None_tail _ _ H)). reflexivity.
Qed.

(** Rendering fills the leftmost placeholder with the first argument and
    goes on behind it with the other arguments. *)
Lemma renderTemplate_first template pre m suf arg rest :
  Js.search template = Some (pre, m, suf) ->
  renderTemplate template (arg :: rest) = pre +:+ Js.String arg +:+ renderTemplate suf rest.
Proof.
  revert pre. induction template as [|a t IH]; intros pre; [discriminate|].
  rewrite search_cons, renderTemplate_cons.
  destruct (Js.placeholder_at (String.String a t)) as [[c after]|].
  - intros [= <- <- <-]. reflexivity.
  - destruct (Js.search t) as [[[p' m'] q']|] eqn:Hs; [|discriminate].
    intros [= <- <- <-]. rewrite (IH p' eq_refl). reflexivity.
Qed.

Lemma endsWithPercent_cons a b t :
  endsWithPercent (String.String a (String.String b t)) = endsWithPercent (String.String b t).
Proof. reflexivity. Qed.

Lemma search_append_clean x y :
  clean x ->
  Js.search (x +:+ y) =
  match Js.search y with
  | Some (pre, m, suf) => Some (x +:+ pre, m, suf)
  | None => None
  end.
Proof.
  induction x as [|a x IH]; intros [Hs He].
  - rewrite append_nil_l. destruct (Js.search y) as [[[? ?] ?]|]; reflexivity.
  - rewrite append_cons, search_cons.
    assert (Hph : Js.placeholder_at (String.String a (x +:+ y)) = None).
    { destruct x as [|b x'].
      - rewrite append_nil_l. simpl in He. unfold Js.placeholder_at.
        destruct y as [|c y']; [reflexivity|]. rewrite He. reflexivity.
      - apply search_None_placeholder in Hs. rewrite append_cons.
        unfold Js.placeholder_at in *.
        destruct (Ascii.eqb a "%" && Js.is_ds b); [discriminate | reflexivity]. }
    rewrite Hph, IH.
    + destruct (Js.search y) as [[[? ?] ?]|]; reflexivity.
    + split; [apply (search_None_tail _ _ Hs)|].
      destruct x as [|b x']; [reflexivity|]. rewrite endsWithPercent_cons in He. exact He.
Qed.

Lemma endsWithPercent_append x y :
  endsWithPercent (x +:+ y)
  = match y with "" => endsWithPercent x | _ => endsWithPercent y end.
Proof.
  induction x as [|a x IH].
  - rewrite append_nil_l. destruct y; reflexivity.
  - rewrite append_cons. destruct x as [|b x'].
    + rewrite append_nil_l. destruct y as [|c y']; reflexivity.
    + rewrite append_cons, endsWithPercent_cons, <- append_cons, IH.
      destruct y; reflexivity.
Qed.

Lemma clean_append x y :
  clean x -> Js.search y = None -> endsWithPercent y = false -> clean (x +:+ y).
Proof.
  intros Hx Hs He. split.
  - rewrite (search_append_clean x y Hx), Hs. reflexivity.
  - rewrite endsWithPercent_append. destruct y; [apply Hx | exact He].
Qed.

Lemma no_percent_clean s :
  hasChar "%" s = false -> Js.search s = None /\ endsWithPercent s = false.
Proof.
  induction s as [|a t IH]; [split; reflexivity|].
  simpl hasChar. intros H. apply orb_false_iff in H as [Ha Ht].
  destruct (IH Ht) as [Hs He]. split.
  - rewrite search_cons, Hs. unfold Js.placeholder_at.
    destruct t; [reflexivity|]. rewrite Ha. reflexivity.
  - destruct t; [exact Ha | exact He].
Qed.

Lemma tidy_search template pre m suf :
  Js.search template = Some (pre, m, suf) ->
  tidy template = true ->
  endsWithPercent pre = false /\ tidy suf = true.
Proof.
  revert pre. induction template as [|a t IH]; intros pre; [discriminate|].
  rewrite search_cons.
  destruct (Js.placeholder_at (String.String a t)) as [[c after]|] eqn:Hph.
  - intros [= <- <- <-] Ht. split; [reflexivity|].
    unfold Js.placeholder_at in Hph. destruct t as [|c' t']; [discriminate|].
    destruct (Ascii.eqb a "%" && Js.is_ds c'); [|discriminate].
    injection Hph as <- <-. simpl in Ht.
    apply andb_true_iff in Ht as [_ Ht]. apply andb_true_iff in Ht as [_ Ht]. exact Ht.
  - destruct (Js.search t) as [[[p' m'] q']|] eqn:Hs; [|discriminate].
    intros [= <- <- <-] Ht. simpl in Ht. apply andb_true_iff in Ht as [Ha Ht].
    destruct (IH p' eq_refl Ht) as [He Hq]. split; [|exact Hq].
    destruct p' as [|b p''].
    + rewrite (search_Some_empty _ _ _ Hs), andb_true_r in Ha.
      simpl. destruct (Ascii.eqb a "%"); [discriminate | reflexivity].
    + rewrite endsWithPercent_cons. exact He.
Qed.

Lemma printfLike_cons format arg rest :
  printfLike format (arg :: rest) = printfLike (Js.replace format (Js.String arg)) rest.
Proof. reflexivity. Qed.

(** The reduction of [printfLike] behind a clean prefix. *)
Lemma printfLike_behind_clean args :
  forall x y,
    clean x -> tidy y = true -> Forall plain args ->
    printfLike (x +:+ y) args = x +:+ renderTemplate y args.
Proof.
  induction args as [|arg rest IH]; intros x y Hx Hy Hargs.
  - rewrite renderTemplate_nil. reflexivity.
  - inversion Hargs as [|? ? [Hpct Hdollar] Hrest]; subst.
    rewrite printfLike_cons. unfold Js.replace.
    rewrite (search_append_clean x y Hx).
    destruct (Js.search y) as [[[pre m] suf]|] eqn:Hs.
    + destruct (search_Some _ _ _ _ Hs) as (_ & Hpre & _).
      destruct (tidy_search _ _ _ _ Hs Hy) as [Hend Hsuf].
      destruct (no_percent_clean _ Hpct) as [Hs1 Hs2].
      rewrite (getSubstitution_plain _ _ _ _ Hdollar).
      rewrite (renderTemplate_first _ _ _ _ arg rest Hs).
      rewrite <- !append_assoc. rewrite IH; [reflexivity | | exact Hsuf | exact Hrest].
      apply clean_append; [|exact Hs1 | exact Hs2].
      apply clean_append; assumption.
    + rewrite (renderTemplate_no_placeholder y (arg :: rest) Hs).
      rewrite (IH x y Hx Hy Hrest).
      rewrite (renderTemplate_no_placeholder y rest Hs). reflexivity.
Qed.

(** On plain arguments and a tidy template, [printfLike] renders the
    template as the specification words it. *)
Lemma printfLike_renders_template template args :
  tidy template = true -> Forall plain args ->
  printfLike template args = renderTemplate template args.
Proof.
  intros Ht Hargs.
  apply (printfLike_behind_clean args "" template); [split; reflexivity | assumption..].
Qed.

(** The example of the specification, and a message given as a
    function. *)
Example render_example :
  buildWarningMessage (MessageString "Expected %s but found %d") [Js.Str "a"; Js.Num 1]
  = "Expected a but found 1".
Proof. reflexivity. Qed.

Example render_function f args : buildWarningMessage (MessageFn f) args = f args.
Proof. reflexivity. Qed.

Example render_extra_arguments :
  buildWarningMessage (MessageString "Expected %s") [Js.Str "a"; Js.Str "b"] = "Expected a".
Proof. reflexivity. Qed.

Example render_extra_placeholders :
  buildWarningMessage (MessageString "Expected %s but found %d") [Js.Str "a"]
  = "Expected a but found %d".
Proof. reflexivity. Qed.

(** C8 on arguments whose string form holds a placeholder or a dollar
    pattern. The second argument lands inside the text put in for the
    first one, where the one-pass rendering of the specification puts it
    at the second placeholder; and [$&] is expanded to the matched
    placeholder instead of being copied. *)
Theorem printfLike_rescans_inserted_text :
  buildWarningMessage (MessageString "Expected %s to match %s")
    [Js.Str "%sidebar"; Js.Str "^foo"]
  = "Expected ^fooidebar to match %s"
  /\ renderTemplate "Expected %s to match %s" [Js.Str "%sidebar"; Js.Str "^foo"]
     = "Expected %sidebar to match ^foo"
  /\ buildWarningMessage (MessageString "Unexpected %s") [Js.Str "$&"] = "Unexpected %s"
  /\ renderTemplate "Unexpected %s" [Js.Str "$&"] = "Unexpected $&".
Proof. repeat split. Qed.

End FormatterFacts.

(* ===================================================================== *)
(** ** The rule [function-space-after]                                    *)
(* ===================================================================== *)

Section RuleFacts.

Import FunctionSpaceAfter.
Context {Doc : Type}.
Variable isWhitespace : option ascii -> bool.
Variable ruleMessages : string -> string -> string.

Lemma styleSearch_from_In source target base i :
  In i (styleSearch_from source target base) <->
  (base <= i)%nat /\ String.get (i - base) source = Some target.
Proof.
  revert base. induction source as [|c rest IH]; intros base; simpl.
  - split; [intros [] | intros [_ H]; discriminate].
  - rewrite in_app_iff, IH. split.
    + intros [H|[Hle Hget]].
      * destruct (Ascii.eqb c target) eqn:Hc; [|destruct H].
        destruct H as [<-|[]]. apply Ascii.eqb_eq in Hc. subst c.
        rewrite Nat.sub_diag. split; [lia | reflexivity].
      * split; [lia|]. replace (i - base)%nat with (S (i - S base)) by lia. exact Hget.
    + intros [Hle Hget]. destruct (i - base)%nat as [|k] eqn:Hk.
      * left. injection Hget as ->. rewrite Ascii.eqb_refl. left. lia.
      * right. split; [lia|]. replace (i - S base)%nat with k by lia. exact Hget.
Qed.

(** The scan visits exactly the occurrences of the target. *)
Lemma styleSearch_In source target i :
  In i (styleSearch source target) <-> String.get i source = Some target.
Proof.
  unfold styleSearch. rewrite styleSearch_from_In, Nat.sub_0_r.
  split; [intros [_ H]; exact H | intros H; split; [lia | exact H]].
Qed.

(** C9, as the code has it. In mode [always], at every occurrence of the
    closing parenthesis in a declaration value that the scan visits, a
    problem is reported exactly when the next character is none of: a
    space that is not followed by whitespace, another closing
    parenthesis, a comma, the end of the value. The problem carries the
    "expected" message and the declaration node, and nothing that places
    it inside the node: no index, no line, no start or end position. *)
Theorem always_reports_unpermitted_next_character (decl : Declaration) (i : nat) :
  let next := String.get (i + 1) (value decl) in
  let permitted :=
    (next = Some " "%char /\ isWhitespace (String.get (i + 2) (value decl)) = false)
    \/ next = Some ")"%char \/ next = Some ","%char \/ next = None in
  (In i (styleSearch (value decl) ")") <-> String.get i (value decl) = Some ")"%char)
  /\ (violation (Doc := Doc) isWhitespace ruleMessages "always" (value decl) i (decl_node decl)
      = None <-> permitted)
  /\ (violation (Doc := Doc) isWhitespace ruleMessages "always" (value decl) i (decl_node decl)
      = Some (problemFor (messages_expected ruleMessages) (decl_node decl))
      <-> ~ permitted)
  /\ (let problem : Problem Doc :=
        problemFor (messages_expected ruleMessages) (decl_node decl) in
      message problem = MessageString (messages_expected ruleMessages)
      /\ node problem = Some (decl_node decl)
      /\ index problem = None /\ endIndex problem = None /\ line problem = None
      /\ start problem = None /\ end_ problem = None).
Proof.
  intros next permitted. split; [apply styleSearch_In|].
  assert (Hdec : violation (Doc := Doc) isWhitespace ruleMessages "always"
                   (value decl) i (decl_node decl)
                 = if match next with Some c => Ascii.eqb c " " | None => false end
                      && negb (isWhitespace (String.get (i + 2) (value decl)))
                   then None
                   else if match next with
                           | Some c => Ascii.eqb c ")" || Ascii.eqb c ","
                           | None => true
                           end
                   then None
                   else Some (problemFor (messages_expected ruleMessages) (decl_node decl)))
    by reflexivity.
  assert (Hperm : permitted <->
                  (match next with Some c => Ascii.eqb c " " | None => false end
                   && negb (isWhitespace (String.get (i + 2) (value decl)))
                   || match next with
                      | Some c => Ascii.eqb c ")" || Ascii.eqb c ","
                      | None => true
                      end) = true).
  { unfold permitted. destruct next as [c|].
    - rewrite !orb_true_iff, andb_true_iff, negb_true_iff, !Ascii.eqb_eq. split.
      + intros [ [Hc H] | [Hc | [Hc | Hc] ] ]; try discriminate;
          injection Hc as ->; [left | right; left | right; right]; auto.
      + intros [ [-> H] | [-> | ->] ]; [left | right; left | right; right; left]; auto.
    - split; [intros _; reflexivity | intros _; right; right; right; reflexivity]. }
  rewrite Hdec, Hperm.
  destruct (match next with Some c => Ascii.eqb c " " | None => false end
            && negb (isWhitespace (String.get (i + 2) (value decl))));
    [|destruct (match next with
                | Some c => Ascii.eqb c ")" || Ascii.eqb c ","
                | None => true
                end)]; simpl;
    (split; [split; congruence|]); (split; [split; congruence|]); repeat split.
Qed.

End RuleFacts.

Section RuleExamples.

Import Samples FunctionSpaceAfter.

(** C9 fails as stated: the problem reported for the closing parenthesis
    at offset 14 of the sample value carries no index. *)
Lemma always_violation_localized_counterexample :
  ~ (forall (decl : Declaration) (i : nat) (p : Problem Doc),
        String.get i (value decl) = Some ")"%char ->
        violation sampleIsWhitespace sampleRuleMessages "always"
          (value decl) i (decl_node decl) = Some p ->
        index p = Some (Z.of_nat i)).
Proof.
  intros H.
  specialize (H sampleDecl 14%nat
                (problemFor (messages_expected sampleRuleMessages) sampleNode)
                eq_refl eq_refl).
  discriminate.
Qed.

(** The sample value: the parenthesis at offset 14 is followed by a
    letter, the one at offset 22 ends the value. *)
Lemma always_reports_unpermitted_next_character_witness :
  In 14%nat (styleSearch (value sampleDecl) ")")
  /\ violation (Doc := Doc) sampleIsWhitespace sampleRuleMessages "always"
       (value sampleDecl) 14 (decl_node sampleDecl)
     = Some (problemFor (messages_expected sampleRuleMessages) sampleNode)
  /\ violation (Doc := Doc) sampleIsWhitespace sampleRuleMessages "always"
       (value sampleDecl) 22 (decl_node sampleDecl)
     = None.
Proof.
  pose proof (always_reports_unpermitted_next_character (Doc := Doc)
                sampleIsWhitespace sampleRuleMessages sampleDecl 14) as H14.
  pose proof (always_reports_unpermitted_next_character (Doc := Doc)
                sampleIsWhitespace sampleRuleMessages sampleDecl 22) as H22.
  cbv zeta in H14, H22.
  destruct H14 as (Hscan & _ & Hsome & _). destruct H22 as (_ & Hnone & _).
  split; [|split].
  - apply Hscan. reflexivity.
  - apply Hsome. intros [[H _]|[H|[H|H]]]; discriminate.
  - apply Hnone. right. right. right. reflexivity.
Defined.

(** The whole rule on the sample value: one diagnostic, attached to the
    declaration node, without index or position. *)
Example always_on_sample_value :
  exists r',
    rule sampleIsWhitespace sampleRuleMessages "always" [sampleDecl] sampleResult
    = Returned tt r'
    /\ map fst (messages r')
       = ["Expected single space after " +:+ dq +:+ ")" +:+ dq +:+ " (function-space-after)"]
    /\ map (fun d => (w_index (snd d), w_start (snd d))) (messages r') = [(None, None)].
Proof. eexists. repeat split. Qed.

End RuleExamples.

(* ===================================================================== *)
(** ** What a call of [report] can do                                     *)
(* ===================================================================== *)

Section ReportCases.

Context {Doc : Type}.
Implicit Types (p : Problem Doc) (r : Result Doc).

Lemma shouldFix_inr_true cfg name should :
  shouldFix cfg name = inr should ->
  forall L ranges, mayFix should cfg name L ranges = true -> should = true.
Proof.
  intros _ L ranges H. unfold mayFix in H. destruct should; [reflexivity | discriminate].
Qed.

(** The two ends of [emit]. *)
Lemma emit_shape p L sev dr ign msg url r :
  emit p L sev dr ign msg url r =
  if isDisabled (ruleName p) L dr && negb ign
  then Returned tt (hit p L r)
  else Returned tt
         (warn (buildWarningMessage msg (default [] (messageArgs p)))
            (warningProperties p url sev)
            (latched sev (if isDisabled (ruleName p) L dr then hit p L r else r))).
Proof.
  unfold emit, hit, latched.
  destruct r as [st msgs d]. destruct st as [? ? ? ? ? ? ? ? err wrn ?].
  destruct (isDisabled (ruleName p) L dr), ign, err, wrn,
    (severityIs "error" sev), (severityIs "warning" sev); reflexivity.
Qed.

(** Every call of [report] goes one of the seven ways. *)
Lemma report_cases p r : reportCase p r (report p r).
Proof.
  destruct (discardedByQuiet p (stylelint r)) eqn:Hq.
  { rewrite (report_discarded p r Hq). apply caseDiscarded. exact Hq. }
  destruct (misusedFix p (stylelint r)) eqn:Hm.
  { rewrite (report_misused p r Hq Hm). apply caseMisused; assumption. }
  destruct (startLine p) as [L|] eqn:Hl.
  2:{ rewrite (report_no_line p r Hq Hm (or_introl Hl)). apply caseNoLine; auto. }
  destruct (Z.eq_dec L 0) as [->|HL].
  { rewrite (report_no_line p r Hq Hm (or_intror Hl)). apply caseNoLine; auto. }
  rewrite (report_gate p r L Hq Hm Hl HL).
  assert (Hemit : isFixApplied p L r = Returned false (recorded p None false r) ->
                  reportCase p r
                    (emit p L (ruleSeverity p (stylelint r)) (disabledRanges (stylelint r))
                       (ignoreDisables (configOf r))
                       (default (message p) (customMessages (stylelint r) !! ruleName p))
                       (customUrls (stylelint r) !! ruleName p)
                       (recorded p None false r))).
  { intros Hgate. rewrite emit_shape.
    destruct (isDisabled (ruleName p) L (disabledRanges (stylelint r))) eqn:Hdis;
      destruct (ignoreDisables (configOf r)) eqn:Hign; simpl andb; cbv iota.
    - pose proof (caseEmitted p r L Hq Hm Hl HL Hgate (or_intror Hign)) as H.
      rewrite Hdis in H. exact H.
    - apply (caseSuppressed p r L Hq Hm Hl HL Hgate Hdis Hign).
    - pose proof (caseEmitted p r L Hq Hm Hl HL Hgate (or_introl Hdis)) as H.
      rewrite Hdis in H. exact H.
    - pose proof (caseEmitted p r L Hq Hm Hl HL Hgate (or_introl Hdis)) as H.
      rewrite Hdis in H. exact H. }
  destruct (fix_ p) as [callback|] eqn:Hf.
  - destruct (shouldFix (configOf r) (ruleName p)) as [e|should] eqn:Hs.
    + rewrite (isFixApplied_throws p L r callback e Hf Hs).
      apply (caseGateThrows p r L callback e); assumption.
    + pose proof (isFixApplied_callback p L r callback should Hf Hs) as Hgate.
      destruct (mayFix should (configOf r) (ruleName p) L (disabledRanges (stylelint r)))
        eqn:Hmay.
      * rewrite Hgate.
        pose proof (shouldFix_inr_true _ _ _ Hs _ _ Hmay) as ->.
        apply (caseFixed p r L callback); assumption.
      * rewrite Hgate. apply Hemit. exact Hgate.
  - pose proof (isFixApplied_no_callback p L r Hf) as Hgate.
    rewrite Hgate. apply Hemit. exact Hgate.
Qed.

End ReportCases.

(* ===================================================================== *)
(** ** Properties of [report] beyond the claims                           *)
(* ===================================================================== *)

Section ReportProperties.

Context {Doc : Type}.
Implicit Types (p : Problem Doc) (r : Result Doc).


Lemma shouldFix_true cfg name :
  shouldFix cfg name = inr true ->
  fix_enabled cfg = true /\ ruleDisablesFix cfg name = inr false.
Proof.
  unfold shouldFix. destruct (fix_enabled cfg); [|discriminate].
  destruct (ruleDisablesFix cfg name) as [e|[|]]; try discriminate.
  intros _. split; reflexivity.
Qed.


(** A call of [report] appends at most one message, the diagnostic of
    the problem; the messages that were there stay in place. *)
Theorem report_appends_at_most_its_diagnostic p r :
  messages (store (report p r)) = messages r
  \/ messages (store (report p r)) = messages r ++ [diagnostic p (stylelint r)].
Proof.
  destruct (report_cases p r); simpl; auto.
  right. destruct (isDisabled _ _ _); reflexivity.
Qed.

(** [report] writes to [fixersData], [disabledWarnings] and the two
    latches only: the suppression table, the quiet flag, the severities,
    the configuration, the custom messages and URLs and the metadata come
    out as they went in. *)
Theorem report_keeps_configuration p r :
  let st := stylelint r in
  let st' := stylelint (store (report p r)) in
  disabledRanges st' = disabledRanges st
  /\ quiet st' = quiet st
  /\ ruleSeverities st' = ruleSeverities st
  /\ config st' = config st
  /\ customMessages st' = customMessages st
  /\ customUrls st' = customUrls st
  /\ ruleMetadata st' = ruleMetadata st.
Proof.
  destruct (report_cases p r); simpl; repeat split;
    try (destruct (isDisabled _ _ _); reflexivity).
Qed.

(** The latches never go back to [false], and [report] sets one only
    when it emits the diagnostic, to that diagnostic's severity. *)
Theorem report_latches p r :
  let st := stylelint r in
  let st' := stylelint (store (report p r)) in
  (stylelintError st = true -> stylelintError st' = true)
  /\ (stylelintWarning st = true -> stylelintWarning st' = true)
  /\ (stylelintError st' = true ->
      stylelintError st = true
      \/ (ruleSeverity p st = Some "error"
          /\ messages (store (report p r)) = messages r ++ [diagnostic p st]))
  /\ (stylelintWarning st' = true ->
      stylelintWarning st = true
      \/ (ruleSeverity p st = Some "warning"
          /\ messages (store (report p r)) = messages r ++ [diagnostic p st])).
Proof.
  destruct (report_cases p r); simpl; try (repeat split; auto; fail).
  destruct (isDisabled _ _ _); simpl;
    (split; [intros ->; reflexivity|]); (split; [intros ->; reflexivity|]);
    split; intros Hset; apply orb_true_iff in Hset as [Hset|Hset]; auto;
    right; (split; [apply severityIs_true; exact Hset | reflexivity]).
Qed.

(** The document is edited only by the fix callback of the problem, and
    only when the problem got past the quiet filter, fixing is enabled
    globally and not disabled for the rule, and the line is not
    suppressed or suppressions are ignored; then nothing is emitted. *)
Theorem report_edits_only_by_enabled_fix p r :
  root (store (report p r)) = root r
  \/ exists callback L,
       fix_ p = Some callback
       /\ startLine p = Some L
       /\ discardedByQuiet p (stylelint r) = false
       /\ fix_enabled (configOf r) = true
       /\ ruleDisablesFix (configOf r) (ruleName p) = inr false
       /\ (ignoreDisables (configOf r) = true
           \/ isDisabled (ruleName p) L (disabledRanges (stylelint r)) = false)
       /\ root (store (report p r)) = fst (callback (root r))
       /\ messages (store (report p r)) = messages r.
Proof.
  destruct (report_cases p r) as [| | | |L callback Hq Hm Hl HL Hf Hs Hmay| |];
    simpl; auto; [|left; destruct (isDisabled _ _ _); reflexivity].
  right. exists callback, L. destruct (shouldFix_true _ _ Hs) as [He Hd].
  repeat split; auto.
  unfold mayFix in Hmay. simpl in Hmay. apply orb_true_iff in Hmay as [H|H]; auto.
  right. apply negb_true_iff. exact H.
Qed.

Lemma addFixData_lookup (fd : gmap string (list FixerData)) name range fixed :
  addFixData fd name range fixed !! name
  = Some (default [] (fd !! name) ++ [mkFixerData range fixed]).
Proof. unfold addFixData. apply lookup_insert_eq. Qed.

Lemma addFixData_lookup_ne (fd : gmap string (list FixerData)) name other range fixed :
  other <> name -> addFixData fd name range fixed !! other = fd !! other.
Proof. intros H. unfold addFixData. apply lookup_insert_ne. congruence. Qed.

(** A call of [report] that returns without having been dropped by the
    quiet filter has added exactly one entry to the fix data of the rule,
    behind the entries that were there, and has left the fix data of
    every other rule alone. *)
Theorem report_records_one_fix_outcome p r r' :
  report p r = Returned tt r' ->
  discardedByQuiet p (stylelint r) = false ->
  (exists range fixed,
      fixersData (stylelint r') !! ruleName p
      = Some (default [] (fixersData (stylelint r) !! ruleName p)
              ++ [mkFixerData range fixed]))
  /\ (forall other, other <> ruleName p ->
        fixersData (stylelint r') !! other = fixersData (stylelint r) !! other).
Proof.
  intros H Hnq. pose proof (report_cases p r) as Hc. rewrite H in Hc.
  inversion Hc; subst; try congruence.
  - split; [eexists _, _; apply addFixData_lookup|].
    intros other Hne. apply addFixData_lookup_ne. exact Hne.
  - split; [eexists _, _; apply addFixData_lookup|].
    intros other Hne. apply addFixData_lookup_ne. exact Hne.
  - destruct (isDisabled _ _ _);
      (split; [eexists _, _; apply addFixData_lookup|]);
      intros other Hne; apply addFixData_lookup_ne; exact Hne.
Qed.

(** [disabledWarnings] changes only by one hit pushed at its end, for
    the rule and the line of the problem, and only when that line is
    suppressed for the rule. *)
Theorem report_pushes_at_most_one_hit p r :
  let st := stylelint r in
  let st' := stylelint (store (report p r)) in
  disabledWarnings st' = disabledWarnings st
  \/ exists L,
       startLine p = Some L
       /\ isDisabled (ruleName p) L (disabledRanges st) = true
       /\ disabledWarnings st'
          = Some (default [] (disabledWarnings st) ++ [mkDisabledWarning (ruleName p) L]).
Proof.
  destruct (report_cases p r) as [| | | | |L Hq Hm Hl HL Hg Hdis Hign|L Hq Hm Hl HL Hg Hor];
    simpl; auto.
  - right. exists L. auto.
  - destruct (isDisabled _ _ _) eqn:Hdis; simpl; auto.
    right. exists L. auto.
Qed.

(** Under quiet mode [report] emits nothing but diagnostics of severity
    [error], and never sets the warning latch. *)
Theorem report_quiet_emits_only_errors p r :
  quiet (stylelint r) = true ->
  (messages (store (report p r)) = messages r
   \/ (messages (store (report p r)) = messages r ++ [diagnostic p (stylelint r)]
       /\ w_severity (snd (diagnostic p (stylelint r))) = Some "error"))
  /\ stylelintWarning (stylelint (store (report p r))) = stylelintWarning (stylelint r).
Proof.
  intros Hquiet.
  assert (Herr : discardedByQuiet p (stylelint r) = false ->
                 ruleSeverity p (stylelint r) = Some "error").
  { unfold discardedByQuiet. rewrite Hquiet. simpl. intros H.
    apply negb_false_iff in H. apply severityIs_true. exact H. }
  destruct (report_cases p r) as [| | | | | |L Hq Hm Hl HL Hg Hor]; simpl; auto.
  pose proof (Herr Hq) as Hsev. split.
  - right. split; [destruct (isDisabled _ _ _); reflexivity | exact Hsev].
  - destruct (isDisabled _ _ _); simpl; rewrite Hsev; apply orb_false_r.
Qed.

(** An explicit line 0 counts as no line at all, whatever the node
    could have told. *)
Theorem report_rejects_line_zero p r :
  line p = Some 0 ->
  discardedByQuiet p (stylelint r) = false ->
  misusedFix p (stylelint r) = false ->
  report p r = Thrown (Error (lineErrorText (ruleName p))) r.
Proof.
  intros Hl Hq Hm. apply report_no_line; auto.
  right. unfold startLine. rewrite Hl. reflexivity.
Qed.

(** A problem on a suppressed line, suppressions not being ignored, is
    neither fixed nor reported: all that happens is that the unapplied
    fix and the hit are recorded. *)
Theorem report_suppressed_neither_fixed_nor_emitted p r L :
  discardedByQuiet p (stylelint r) = false ->
  misusedFix p (stylelint r) = false ->
  startLine p = Some L -> L <> 0 ->
  (fix_ p = None \/ exists should, shouldFix (configOf r) (ruleName p) = inr should) ->
  isDisabled (ruleName p) L (disabledRanges (stylelint r)) = true ->
  ignoreDisables (configOf r) = false ->
  report p r = Returned tt (hit p L (recorded p None false r)).
Proof.
  intros Hq Hm Hl HL Hfix Hdis Hign.
  assert (Hgate : isFixApplied p L r = Returned false (recorded p None false r)).
  { destruct (fix_ p) as [callback|] eqn:Hf.
    - destruct Hfix as [?|[should Hs]]; [discriminate|].
      rewrite (isFixApplied_callback p L r callback should Hf Hs).
      unfold mayFix. rewrite Hdis, Hign, andb_false_r. reflexivity.
    - apply isFixApplied_no_callback. exact Hf. }
  rewrite (report_gate p r L Hq Hm Hl HL), Hgate, emit_shape, Hdis, Hign.
  reflexivity.
Qed.

(** The gate throws exactly when there is a fix callback, fixing is
    enabled globally, and the per-rule settings map is there but holds
    nothing, or [null], for the rule. *)
Theorem gate_throws_iff p L r :
  (exists e r', isFixApplied p L r = Thrown e r') <->
  (exists callback settings,
      fix_ p = Some callback
      /\ fix_enabled (configOf r) = true
      /\ rules (configOf r) = Some settings
      /\ (settings !! ruleName p = None \/ settings !! ruleName p = Some SettingsNull)).
Proof.
  split.
  - intros (e & r' & H). unfold isFixApplied in H. fold (configOf r) in H.
    destruct (fix_ p) as [callback|]; [|discriminate].
    destruct (shouldFix (configOf r) (ruleName p)) as [e'|should] eqn:Hs.
    + unfold shouldFix, ruleDisablesFix in Hs.
      destruct (fix_enabled (configOf r)); [|discriminate].
      destruct (rules (configOf r)) as [settings|]; [|discriminate].
      exists callback, settings. repeat split.
      destruct (settings !! ruleName p) as [[| |[o|]]|]; try discriminate; auto.
    + destruct (mayFix _ _ _ _ _); [destruct (callback (root r))|]; discriminate.
  - intros (callback & settings & Hf & He & Hr & Hs).
    assert (exists e, shouldFix (configOf r) (ruleName p) = inl e) as [e Hthrow].
    { unfold shouldFix, ruleDisablesFix. rewrite He, Hr.
      destruct Hs as [-> | ->]; eexists; reflexivity. }
    exists e, r. apply (isFixApplied_throws p L r callback e Hf Hthrow).
Qed.

End ReportProperties.

(* ===================================================================== *)
(** ** Properties of the suppression index and of the formatter           *)
(* ===================================================================== *)

Section IndexAndFormatterProperties.

Import Formatter.

Lemma isDisabled_loop_existsb name L ranges :
  isDisabled_loop name L ranges = existsb (rangeCovers name L) ranges.
Proof.
  induction ranges as [|range rest IH]; simpl; [reflexivity|].
  rewrite IH. destruct (rangeCovers name L range); reflexivity.
Qed.

Lemma isDisabled_loop_Permutation name L ranges ranges' :
  Permutation ranges ranges' ->
  isDisabled_loop name L ranges = isDisabled_loop name L ranges'.
Proof.
  intros H. rewrite !isDisabled_loop_existsb.
  induction H as [|x l l' _ IH|x y l|l l' l'' _ IH1 _ IH2]; simpl.
  - reflexivity.
  - rewrite IH. reflexivity.
  - destruct (rangeCovers name L x), (rangeCovers name L y); reflexivity.
  - congruence.
Qed.

(** The order of the ranges under a key does not matter to
    [isDisabled]: the loop returns at the first covering range, but any
    covering range will do. *)
Theorem isDisabled_ignores_range_order name L key ranges ranges'
    (disabledRanges : gmap string (list DisabledRange)) :
  Permutation ranges ranges' ->
  isDisabled name L (<[key := ranges]> disabledRanges)
  = isDisabled name L (<[key := ranges']> disabledRanges).
Proof.
  intros H. unfold isDisabled, rangesFor. rewrite !lookup_insert.
  destruct (decide (key = name)); [apply isDisabled_loop_Permutation; exact H|].
  destruct (disabledRanges !! name); [reflexivity|].
  destruct (decide (key = RULE_NAME_ALL)); [apply isDisabled_loop_Permutation; exact H|].
  reflexivity.
Qed.

(** Once a rule has ranges of its own, the empty list included, the
    blanket ranges are not consulted for it. *)
Theorem isDisabled_own_ranges_shadow_blanket name L own blanket
    (disabledRanges : gmap string (list DisabledRange)) :
  disabledRanges !! name = Some own ->
  name <> RULE_NAME_ALL ->
  isDisabled name L (<[RULE_NAME_ALL := blanket]> disabledRanges)
  = isDisabled_loop name L own.
Proof.
  intros Hown Hne. unfold isDisabled, rangesFor.
  rewrite lookup_insert_ne by congruence. rewrite Hown. reflexivity.
Qed.

(** When the ranges consulted for a rule are all open-ended, a
    suppressed line leaves every later line suppressed too. *)
Theorem isDisabled_open_ended_upward name L L'
    (disabledRanges : gmap string (list DisabledRange)) :
  Forall (fun range => dr_end range = None) (rangesFor name disabledRanges) ->
  L <= L' ->
  isDisabled name L disabledRanges = true ->
  isDisabled name L' disabledRanges = true.
Proof.
  unfold isDisabled. intros Hopen Hle.
  rewrite !isDisabled_loop_true. intros (range & Hin & Hc).
  exists range. split; [exact Hin|].
  rewrite Forall_forall in Hopen. specialize (Hopen range).
  apply rangeCovers_true in Hc. destruct Hc as (Hs & _ & Hr).
  apply rangeCovers_true. split; [lia|]. split; [|exact Hr].
  left. apply Hopen. apply list_elem_of_In. exact Hin.
Qed.

(** A format without a placeholder comes out of [printfLike] as it is,
    whatever the arguments are. *)
Theorem printfLike_without_placeholder format args :
  Js.search format = None -> printfLike format args = format.
Proof.
  intros H. induction args as [|arg rest IH]; [reflexivity|].
  rewrite printfLike_cons. unfold Js.replace. rewrite H. exact IH.
Qed.

End IndexAndFormatterProperties.

(* ===================================================================== *)
(** ** Properties of the rule [function-space-after]                      *)
(* ===================================================================== *)

Section RuleProperties.

Import FunctionSpaceAfter.
Context {Doc : Type}.
Variable isWhitespace : option ascii -> bool.
Variable ruleMessages : string -> string -> string.
Implicit Types (r : Result Doc) (decl : Declaration).

Lemma forEach_noop {A : Type} (f : A -> Result Doc -> outcome (Result Doc) unit) l r :
  (forall a r', In a l -> f a r' = Returned tt r') ->
  forEach f l r = Returned tt r.
Proof.
  induction l as [|a rest IH]; intros H; simpl; [reflexivity|].
  rewrite (H a r (or_introl eq_refl)). apply IH.
  intros b r' Hb. apply H. right. exact Hb.
Qed.

(** A property of the store that every call of the callback keeps is
    kept by the loop, whether it ends normally or by an exception. *)
Lemma forEach_invariant {A : Type} (P : Result Doc -> Prop)
    (f : A -> Result Doc -> outcome (Result Doc) unit) l :
  (forall a r, In a l -> P r -> P (store (f a r))) ->
  forall r, P r -> P (store (forEach f l r)).
Proof.
  induction l as [|a rest IH]; intros H r HP; simpl; [exact HP|].
  pose proof (H a r (or_introl eq_refl) HP) as Ha.
  destruct (f a r) as [u r'|e r']; simpl in *; [|exact Ha].
  apply IH; [|exact Ha]. intros b r0 Hb. apply H. right. exact Hb.
Qed.

(** An exception out of the loop is an exception out of one call of the
    callback. *)
Lemma forEach_thrown {A : Type} (f : A -> Result Doc -> outcome (Result Doc) unit) l :
  forall r e r', forEach f l r = Thrown e r' ->
  exists a r0, In a l /\ f a r0 = Thrown e r'.
Proof.
  induction l as [|a rest IH]; intros r e r' H; simpl in H; [discriminate|].
  destruct (f a r) as [u r1|e1 r1] eqn:Hf.
  - destruct (IH r1 e r' H) as (b & r0 & Hb & Hthrow).
    exists b, r0. split; [right; exact Hb | exact Hthrow].
  - injection H as <- <-. exists a, r. split; [left; reflexivity | exact Hf].
Qed.

(** The problems of the rule carry its name and its node, and nothing
    else but a message. *)
Lemma violation_Some expectation source i n (p : Problem Doc) :
  violation isWhitespace ruleMessages expectation source i n = Some p ->
  exists text, p = problemFor text n.
Proof.
  unfold violation.
  repeat match goal with
         | |- context [if ?c then _ else _] => destruct c
         end; try discriminate; intros [= <-]; eexists; reflexivity.
Qed.

(** What [report] does with a problem of the rule: nothing, an error
    about the line, or the recording of an unapplied fix followed by a
    hit, a diagnostic, or both. *)
Lemma report_problemFor text n r :
  let p : Problem Doc := problemFor text n in
  report p r = Returned tt r
  \/ report p r = Thrown (Error (lineErrorText ruleName)) r
  \/ (exists L, report p r = Returned tt (hit p L (recorded p None false r)))
  \/ (exists L (suppressed : bool),
        report p r
        = Returned tt
            (warn (fst (diagnostic p (stylelint r))) (snd (diagnostic p (stylelint r)))
               (latched (ruleSeverity p (stylelint r))
                  (if suppressed then hit p L (recorded p None false r)
                   else recorded p None false r)))).
Proof.
  intros p. destruct (report_cases p r) as [|Hq Hm| | | | |]; auto.
  - discriminate Hm.
  - discriminate.
  - discriminate.
  - right. right. left. eauto.
  - right. right. right. eauto.
Qed.

(** A property of the store kept by [report] on the problems of the
    rule is kept by a run of the rule. *)
Lemma rule_invariant (P : Result Doc -> Prop) expectation css :
  (forall text decl r, In decl css -> P r ->
      P (store (report (problemFor text (decl_node decl)) r))) ->
  forall r, P r -> P (store (rule isWhitespace ruleMessages expectation css r)).
Proof.
  intros H r HP. unfold rule.
  apply forEach_invariant; [|exact HP].
  intros decl r1 Hdecl HP1. apply forEach_invariant; [|exact HP1].
  intros i r2 _ HP2. unfold checkClosingParen.
  destruct (violation _ _ _ _ _ _) as [p|] eqn:Hv; [|exact HP2].
  destruct (violation_Some _ _ _ _ _ Hv) as [text ->].
  apply H; assumption.
Qed.

(** A style sheet without a violation leaves the result untouched: no
    diagnostic, and no fix data either, since [report] is never
    called. *)
Theorem rule_without_violation_is_silent expectation css r :
  (forall decl i, In decl css -> In i (styleSearch (value decl) ")") ->
      violation (Doc := Doc) isWhitespace ruleMessages expectation
        (value decl) i (decl_node decl) = None) ->
  rule isWhitespace ruleMessages expectation css r = Returned tt r.
Proof.
  intros H. unfold rule. apply forEach_noop. intros decl r1 Hdecl.
  apply forEach_noop. intros i r2 Hi. unfold checkClosingParen.
  rewrite (H decl i Hdecl Hi). reflexivity.
Qed.

(** An expectation other than [always] and [never] is not refused: the
    rule does nothing at all. *)
Theorem rule_unknown_expectation_is_silent expectation css r :
  expectation <> "always" -> expectation <> "never" ->
  rule isWhitespace ruleMessages expectation css r = Returned tt r.
Proof.
  intros Ha Hn. unfold rule. apply forEach_noop. intros decl r1 _.
  apply forEach_noop. intros i r2 _. unfold checkClosingParen, violation.
  apply String.eqb_neq in Ha, Hn. rewrite Ha, Hn. reflexivity.
Qed.

(** The rule never edits the document and never touches what [report]
    only reads. *)
Theorem rule_never_edits expectation css r :
  let r' := store (rule isWhitespace ruleMessages expectation css r) in
  root r' = root r
  /\ disabledRanges (stylelint r') = disabledRanges (stylelint r)
  /\ quiet (stylelint r') = quiet (stylelint r)
  /\ ruleSeverities (stylelint r') = ruleSeverities (stylelint r)
  /\ config (stylelint r') = config (stylelint r)
  /\ customMessages (stylelint r') = customMessages (stylelint r)
  /\ customUrls (stylelint r') = customUrls (stylelint r)
  /\ ruleMetadata (stylelint r') = ruleMetadata (stylelint r).
Proof.
  apply (rule_invariant
           (fun r' =>
              root r' = root r
              /\ disabledRanges (stylelint r') = disabledRanges (stylelint r)
              /\ quiet (stylelint r') = quiet (stylelint r)
              /\ ruleSeverities (stylelint r') = ruleSeverities (stylelint r)
              /\ config (stylelint r') = config (stylelint r)
              /\ customMessages (stylelint r') = customMessages (stylelint r)
              /\ customUrls (stylelint r') = customUrls (stylelint r)
              /\ ruleMetadata (stylelint r') = ruleMetadata (stylelint r)));
    [|repeat split].
  intros text decl r1 _ HP.
  destruct (report_problemFor text (decl_node decl) r1)
    as [H|[H|[(L & H)|(L & [|] & H)]]]; rewrite H; exact HP.
Qed.

(** The only exception that leaves the rule is the error about the
    missing line, raised when a declaration node yields no line. *)
Theorem rule_throws_only_line_error expectation css r e r' :
  rule isWhitespace ruleMessages expectation css r = Thrown e r' ->
  e = Error (lineErrorText ruleName)
  /\ exists decl,
       In decl css
       /\ (nr_start (rangeBy (decl_node decl) None None) = None
           \/ pos_line <$> nr_start (rangeBy (decl_node decl) None None) = Some 0).
Proof.
  intros H. unfold rule in H.
  apply forEach_thrown in H as (decl & r0 & Hdecl & H).
  apply forEach_thrown in H as (i & r1 & _ & H).
  unfold checkClosingParen in H.
  destruct (violation _ _ _ _ _ _) as [p|] eqn:Hv; [|discriminate].
  destruct (violation_Some _ _ _ _ _ Hv) as [text ->].
  pose proof (report_cases (problemFor text (decl_node decl)) r1) as Hc.
  rewrite H in Hc. inversion Hc as [|Hq Hm|Hq Hm Hl|L cb e' Hq Hm Hl HL Hf| | |]; subst.
  - discriminate Hm.
  - split; [reflexivity|]. exists decl. split; [exact Hdecl|].
    unfold startLine in Hl. simpl in Hl.
    destruct (nr_start (rangeBy (decl_node decl) None None)); simpl in *;
      destruct Hl as [Hl|Hl]; auto; discriminate.
  - discriminate Hf.
Qed.

(** Every diagnostic that the rule adds stands behind the messages that
    were there, bears the name of the rule and the node of one of the
    declarations, and has no index, position or word. *)
Theorem rule_diagnostics_are_node_level expectation css r :
  exists added,
    messages (store (rule isWhitespace ruleMessages expectation css r))
    = messages r ++ added
    /\ Forall
         (fun d : string * WarningOptions =>
            w_rule (snd d) = ruleName
            /\ (exists decl, In decl css /\ w_node (snd d) = Some (decl_node decl))
            /\ w_index (snd d) = None /\ w_endIndex (snd d) = None
            /\ w_start (snd d) = None /\ w_end (snd d) = None
            /\ w_word (snd d) = None)
         added.
Proof.
  apply (rule_invariant
           (fun r' =>
              exists added,
                messages r' = messages r ++ added
                /\ Forall
                     (fun d : string * WarningOptions =>
                        w_rule (snd d) = ruleName
                        /\ (exists decl, In decl css
                                         /\ w_node (snd d) = Some (decl_node decl))
                        /\ w_index (snd d) = None /\ w_endIndex (snd d) = None
                        /\ w_start (snd d) = None /\ w_end (snd d) = None
                        /\ w_word (snd d) = None)
                     added)).
  - intros text decl r1 Hdecl (added & Hmsgs & Hall).
    destruct (report_problemFor text (decl_node decl) r1)
      as [H|[H|[(L & H)|(L & suppressed & H)]]]; rewrite H; simpl.
    + exists added. split; assumption.
    + exists added. split; assumption.
    + exists added. split; assumption.
    + exists (added ++ [diagnostic (problemFor (Doc := Doc) text (decl_node decl))
                          (stylelint r1)]).
      split.
      * destruct suppressed; simpl; rewrite Hmsgs, <- app_assoc; reflexivity.
      * apply Forall_app. split; [exact Hall|]. constructor; [|constructor].
        simpl. split; [reflexivity|]. split; [exists decl; split; auto|].
        repeat split.
  - exists []. split; [rewrite app_nil_r; reflexivity | constructor].
Qed.

(** The rule emits at most one diagnostic for each closing parenthesis
    of the declaration values. *)
Theorem rule_emits_at_most_one_per_delimiter expectation css r :
  (length (messages (store (rule isWhitespace ruleMessages expectation css r)))
   <= length (messages r)
      + list_sum (map (fun decl => length (styleSearch (value decl) ")")) css))%nat.
Proof.
  unfold rule. revert r.
  assert (Hinner : forall decl l r,
             (length (messages (store
                (forEach (fun startIndex =>
                            checkClosingParen isWhitespace ruleMessages expectation
                              (value decl) startIndex (decl_node decl)) l r)))
              <= length (messages r) + length l)%nat).
  { intros decl l. induction l as [|i rest IH]; intros r; simpl; [lia|].
    unfold checkClosingParen at 1.
    destruct (violation _ _ _ _ _ _) as [p|] eqn:Hv.
    - destruct (violation_Some _ _ _ _ _ Hv) as [text ->].
      destruct (report_problemFor text (decl_node decl) r)
        as [H|[H|[(L & H)|(L & suppressed & H)]]]; rewrite H; simpl.
      + specialize (IH r). lia.
      + lia.
      + specialize (IH (hit (problemFor text (decl_node decl)) L
                          (recorded (problemFor text (decl_node decl)) None false r))).
        simpl in IH. lia.
      + match goal with
        | |- context [forEach _ rest ?r1] => specialize (IH r1)
        end.
        simpl in IH. rewrite length_app in IH. simpl in IH.
        destruct suppressed; simpl in IH; lia.
    - specialize (IH r). lia. }
  induction css as [|decl rest IH]; intros r; simpl; [lia|].
  specialize (Hinner decl (styleSearch (value decl) ")") r).
  destruct (forEach _ (styleSearch (value decl) ")") r) as [u r1|e r1]; simpl in *.
  - specialize (IH r1). lia.
  - lia.
Qed.

(** The rule records unapplied fixes only, and only under its own name. *)
Theorem rule_records_only_unapplied_fixes expectation css r :
  let r' := store (rule isWhitespace ruleMessages expectation css r) in
  (forall other, other <> ruleName ->
      fixersData (stylelint r') !! other = fixersData (stylelint r) !! other)
  /\ exists added,
       default [] (fixersData (stylelint r') !! ruleName)
       = default [] (fixersData (stylelint r) !! ruleName) ++ added
       /\ Forall (fun entry => entry = mkFixerData None false) added.
Proof.
  apply (rule_invariant
           (fun r' =>
              (forall other, other <> ruleName ->
                  fixersData (stylelint r') !! other = fixersData (stylelint r) !! other)
              /\ exists added,
                   default [] (fixersData (stylelint r') !! ruleName)
                   = default [] (fixersData (stylelint r) !! ruleName) ++ added
                   /\ Forall (fun entry => entry = mkFixerData None false) added)).
  - intros text decl r1 _ (Hother & added & Hown & Hall).
    assert (Hrec : forall r2,
               fixersData (stylelint r2)
               = addFixData (fixersData (stylelint r1)) ruleName None false ->
               (forall other, other <> ruleName ->
                   fixersData (stylelint r2) !! other = fixersData (stylelint r) !! other)
               /\ exists added',
                    default [] (fixersData (stylelint r2) !! ruleName)
                    = default [] (fixersData (stylelint r) !! ruleName) ++ added'
                    /\ Forall (fun entry => entry = mkFixerData None false) added').
    { intros r2 Hfd. rewrite Hfd. split.
      - intros other Hne. rewrite addFixData_lookup_ne by exact Hne. apply Hother, Hne.
      - exists (added ++ [mkFixerData None false]).
        rewrite addFixData_lookup. simpl. rewrite Hown, <- app_assoc.
        split; [reflexivity|]. apply Forall_app. split; [exact Hall|].
        constructor; [reflexivity | constructor]. }
    destruct (report_problemFor text (decl_node decl) r1)
      as [H|[H|[(L & H)|(L & suppressed & H)]]]; rewrite H; simpl store.
    + split; [exact Hother | exists added; split; assumption].
    + split; [exact Hother | exists added; split; assumption].
    + apply Hrec. reflexivity.
    + apply Hrec. destruct suppressed; reflexivity.
  - split; [reflexivity|]. exists []. split; [rewrite app_nil_r; reflexivity | constructor].
Qed.

End RuleProperties.

(* ===================================================================== *)
(** ** The further properties on the sample inputs                        *)
(* ===================================================================== *)

Section FurtherExamples.

Import Samples FunctionSpaceAfter Formatter.


(** The warning latch is set by the sample problem, a warning, and it
    stays set when the problem is reported again. *)
Lemma report_latches_witness :
  stylelintWarning (stylelint (store (report sampleProblem
     (store (report sampleProblem sampleResult))))) = true.
Proof.
  apply (proj1 (proj2 (report_latches sampleProblem
                         (store (report sampleProblem sampleResult))))).
  reflexivity.
Defined.

(** The fixed sample problem has one applied fix recorded. *)
Lemma report_records_one_fix_outcome_witness :
  (exists range fixed,
      fixersData (stylelint (recorded fixProblem None true (set_root 1%nat sampleResult)))
        !! "r"
      = Some (default [] (fixersData (stylelint sampleResult) !! "r")
              ++ [mkFixerData range fixed]))
  /\ (forall other, other <> "r" ->
        fixersData (stylelint (recorded fixProblem None true (set_root 1%nat sampleResult)))
          !! other
        = fixersData (stylelint sampleResult) !! other).
Proof.
  apply (report_records_one_fix_outcome fixProblem sampleResult
           (recorded fixProblem None true (set_root 1%nat sampleResult))).
  - reflexivity.
  - reflexivity.
Defined.

(** Under quiet mode the sample problem reported as an error is
    emitted, as an error. *)
Lemma report_quiet_emits_only_errors_witness :
  (messages (store (report errorProblem quietResult)) = messages quietResult
   \/ (messages (store (report errorProblem quietResult))
       = messages quietResult ++ [diagnostic errorProblem (stylelint quietResult)]
       /\ w_severity (snd (diagnostic errorProblem (stylelint quietResult)))
          = Some "error"))
  /\ stylelintWarning (stylelint (store (report errorProblem quietResult)))
     = stylelintWarning (stylelint quietResult).
Proof. apply (report_quiet_emits_only_errors errorProblem quietResult). reflexivity. Defined.

(** Line 0 is refused. *)
Lemma report_rejects_line_zero_witness :
  report (withLine (Some 0) sampleProblem) sampleResult
  = Thrown (Error (lineErrorText "r")) sampleResult.
Proof.
  apply (report_rejects_line_zero (withLine (Some 0) sampleProblem) sampleResult);
    reflexivity.
Defined.

(** The sample problem with a fix callback on the suppressed line 4. *)
Lemma report_suppressed_neither_fixed_nor_emitted_witness :
  report (withLine (Some 4) fixProblem) sampleResult
  = Returned tt
      (hit (withLine (Some 4) fixProblem) 4
         (recorded (withLine (Some 4) fixProblem) None false sampleResult)).
Proof.
  apply (report_suppressed_neither_fixed_nor_emitted
           (withLine (Some 4) fixProblem) sampleResult 4).
  - reflexivity.
  - reflexivity.
  - reflexivity.
  - lia.
  - right. exists true. reflexivity.
  - reflexivity.
  - reflexivity.
Defined.

(** The gate throws on the result whose settings map has no entry for
    the rule. *)
Lemma gate_throws_iff_witness :
  exists e r', isFixApplied fixProblem 1 noEntryResult = Thrown e r'.
Proof.
  apply (proj2 (gate_throws_iff fixProblem 1 noEntryResult)).
  exists sampleFix, ∅. repeat split. left. reflexivity.
Defined.

(** The gate on the sample problem with a fix callback. *)
Lemma gate_records_one_outcome_witness :
  exists range r',
    isFixApplied fixProblem 1 sampleResult = Returned true r'
    /\ fixersData (stylelint r')
       = <["r" := default [] (fixersData (stylelint sampleResult) !! "r")
                  ++ [mkFixerData range true]]> (fixersData (stylelint sampleResult))
    /\ messages r' = messages sampleResult
    /\ (true = false -> range = None /\ root r' = root sampleResult)
    /\ (true = true -> exists callback,
          fix_ fixProblem = Some callback
          /\ callback (root sampleResult) = (root r', range)).
Proof.
  apply (gate_records_one_outcome fixProblem 1 sampleResult true).
  right. reflexivity.
Defined.

(** Two ranges in either order. *)
Lemma isDisabled_ignores_range_order_witness :
  isDisabled "r" 4
    (<["r" := [mkDisabledRange 1 (Some 2) None; mkDisabledRange 3 None None]]> ∅)
  = isDisabled "r" 4
      (<["r" := [mkDisabledRange 3 None None; mkDisabledRange 1 (Some 2) None]]> ∅).
Proof. apply isDisabled_ignores_range_order. apply perm_swap. Defined.

(** The rule ["r"] has a range of its own from line 10 on: the blanket
    range over lines 3 to 5 does not suppress its line 4. *)
Lemma isDisabled_own_ranges_shadow_blanket_witness :
  isDisabled "r" 4
    (<[RULE_NAME_ALL := [mkDisabledRange 3 (Some 5) None]]> ownRangesTable)
  = isDisabled_loop "r" 4 [mkDisabledRange 10 None None].
Proof.
  apply isDisabled_own_ranges_shadow_blanket.
  - reflexivity.
  - discriminate.
Defined.

(** An open-ended range from line 10 on. *)
Lemma isDisabled_open_ended_upward_witness :
  isDisabled "r" 20 ownRangesTable = true.
Proof.
  apply (isDisabled_open_ended_upward "r" 10 20 ownRangesTable).
  - repeat constructor.
  - lia.
  - reflexivity.
Defined.

(** A message without placeholder, with arguments. *)
Lemma printfLike_without_placeholder_witness :
  printfLike "Unexpected space" [Js.Str "$&"; Js.Str "%s"] = "Unexpected space".
Proof. apply printfLike_without_placeholder. reflexivity. Defined.

(** The example of the specification. *)
Lemma printfLike_renders_template_witness :
  printfLike "Expected %s but found %d" [Js.Str "a"; Js.Num 1]
  = renderTemplate "Expected %s but found %d" [Js.Str "a"; Js.Num 1].
Proof.
  apply printfLike_renders_template.
  - reflexivity.
  - repeat constructor.
Defined.

(** A compliant declaration. *)
Lemma rule_without_violation_is_silent_witness :
  rule sampleIsWhitespace sampleRuleMessages "always" [compliantDecl] sampleResult
  = Returned tt sampleResult.
Proof.
  apply rule_without_violation_is_silent.
  intros decl i [<-|[]] Hi. simpl in Hi.
  destruct Hi as [<-|[]]. reflexivity.
Defined.

(** A misspelt expectation. *)
Lemma rule_unknown_expectation_is_silent_witness :
  rule sampleIsWhitespace sampleRuleMessages "allways" [sampleDecl] sampleResult
  = Returned tt sampleResult.
Proof. apply rule_unknown_expectation_is_silent; discriminate. Defined.

(** A violation on a node without position. *)
Lemma rule_throws_only_line_error_witness :
  Error (lineErrorText ruleName) = Error (lineErrorText ruleName)
  /\ exists decl,
       In decl [lineLessDecl]
       /\ (nr_start (rangeBy (decl_node decl) None None) = None
           \/ pos_line <$> nr_start (rangeBy (decl_node decl) None None) = Some 0).
Proof.
  apply (rule_throws_only_line_error sampleIsWhitespace sampleRuleMessages
           "always" [lineLessDecl] sampleResult
           (Error (lineErrorText ruleName)) sampleResult).
  reflexivity.
Defined.

End FurtherExamples.

(* ===================================================================== *)
(** ** Severity fallbacks and the mode [never]                            *)
(* ===================================================================== *)

Section SeverityAndNever.

Import FunctionSpaceAfter.
Context {Doc : Type}.
Variable isWhitespace : option ascii -> bool.
Variable ruleMessages : string -> string -> string.
Implicit Types (p : Problem Doc) (r : Result Doc).

(** A problem without a severity of its own, for a rule without a
    configured severity, has no severity at all: under quiet mode it is
    dropped, and otherwise it sets neither latch, whatever else
    happens. *)
Theorem report_without_severity p r :
  severity p = None ->
  ruleSeverities (stylelint r) !! Report.ruleName p = None ->
  (quiet (stylelint r) = true -> report p r = Returned tt r)
  /\ stylelintError (stylelint (store (report p r))) = stylelintError (stylelint r)
  /\ stylelintWarning (stylelint (store (report p r))) = stylelintWarning (stylelint r).
Proof.
  intros Hs Hc.
  assert (Hsev : ruleSeverity p (stylelint r) = None).
  { unfold ruleSeverity. rewrite Hs, Hc. reflexivity. }
  split.
  - intros Hq. apply report_discarded. unfold discardedByQuiet.
    rewrite Hq, Hsev. reflexivity.
  - destruct (report_cases p r); simpl; auto.
    rewrite Hsev. simpl. rewrite !orb_false_r.
    destruct (isDisabled _ _ _); split; reflexivity.
Qed.

(** A severity function that yields nothing, or the empty string, makes
    the problem as severe as the configured default, and an error when
    there is none: quiet mode does not drop it then. *)
Theorem report_severity_function_fallback p r f :
  severity p = Some (SeverityFn f) ->
  truthy (f (default [] (messageArgs p))) = false ->
  ruleSeverity p (stylelint r)
  = Some (default "error" (defaultSeverity (configOf r)))
  /\ (defaultSeverity (configOf r) = None ->
      discardedByQuiet p (stylelint r) = false).
Proof.
  intros Hs Hf.
  assert (Hsev : ruleSeverity p (stylelint r)
                 = Some (default "error" (defaultSeverity (configOf r)))).
  { unfold ruleSeverity. rewrite Hs, Hf. reflexivity. }
  split; [exact Hsev|]. intros Hd. unfold discardedByQuiet.
  rewrite Hsev, Hd. simpl. apply andb_false_r.
Qed.

(** In mode [never] a problem with the "rejected" message is reported
    at a closing parenthesis exactly when the next character is
    whitespace. Where the parenthesis is followed by one space and no
    further whitespace, mode [always] is satisfied and mode [never] is
    not; where it ends the value, both are satisfied as long as a
    missing character is not whitespace. *)
Theorem never_reports_whitespace decl (i : nat) :
  let next := String.get (i + 1) (value decl) in
  let never :=
    violation (Doc := Doc) isWhitespace ruleMessages "never" (value decl) i (decl_node decl) in
  let always :=
    violation (Doc := Doc) isWhitespace ruleMessages "always" (value decl) i (decl_node decl) in
  (never = Some (problemFor (messages_rejected ruleMessages) (decl_node decl))
   <-> isWhitespace next = true)
  /\ (never = None <-> isWhitespace next = false)
  /\ (next = Some " "%char ->
      isWhitespace (Some " "%char) = true ->
      isWhitespace (String.get (i + 2) (value decl)) = false ->
      always = None /\ never <> None)
  /\ (next = None -> isWhitespace None = false -> always = None /\ never = None).
Proof.
  intros next never always.
  assert (Hn : never = if isWhitespace next
                       then Some (problemFor (messages_rejected ruleMessages) (decl_node decl))
                       else None) by reflexivity.
  assert (Ha : always
               = if match next with Some c => Ascii.eqb c " " | None => false end
                    && negb (isWhitespace (String.get (i + 2) (value decl)))
                 then None
                 else if match next with
                         | Some c => Ascii.eqb c ")" || Ascii.eqb c ","
                         | None => true
                         end
                 then None
                 else Some (problemFor (messages_expected ruleMessages) (decl_node decl)))
    by reflexivity.
  rewrite Hn, Ha. clearbody next. clear Hn Ha never always.
  split; [|split; [|split]].
  - destruct (isWhitespace next); split; congruence.
  - destruct (isWhitespace next); split; congruence.
  - intros -> Hsp Hnext. rewrite Hsp, Hnext. simpl. split; congruence.
  - intros -> Hnone. rewrite Hnone. simpl. split; reflexivity.
Qed.

End SeverityAndNever.

Section SeverityAndNeverExamples.

Import Samples FunctionSpaceAfter.

(** A problem of a rule without configured severity, under quiet mode. *)
Lemma report_without_severity_witness :
  (quiet (stylelint quietResult) = true ->
   report (withLine (Some 1)
             (FunctionSpaceAfter.problemFor "Expected" sampleNode)) quietResult
   = Returned tt quietResult)
  /\ stylelintError (stylelint (store (report
        (withLine (Some 1) (FunctionSpaceAfter.problemFor "Expected" sampleNode))
        quietResult)))
     = stylelintError (stylelint quietResult)
  /\ stylelintWarning (stylelint (store (report
        (withLine (Some 1) (FunctionSpaceAfter.problemFor "Expected" sampleNode))
        quietResult)))
     = stylelintWarning (stylelint quietResult).
Proof.
  apply (report_without_severity
           (withLine (Some 1) (FunctionSpaceAfter.problemFor "Expected" sampleNode))
           quietResult); reflexivity.
Defined.

(** A severity function that yields nothing, on the sample result, whose
    configuration has no default severity. *)
Lemma report_severity_function_fallback_witness :
  ruleSeverity (withSeverity (Some (SeverityFn (fun _ => None))) sampleProblem)
    (stylelint quietResult)
  = Some (default "error" (defaultSeverity (configOf quietResult)))
  /\ (defaultSeverity (configOf quietResult) = None ->
      discardedByQuiet (withSeverity (Some (SeverityFn (fun _ => None))) sampleProblem)
        (stylelint quietResult) = false).
Proof.
  apply (report_severity_function_fallback
           (withSeverity (Some (SeverityFn (fun _ => None))) sampleProblem)
           quietResult (fun _ => None)); reflexivity.
Defined.

(** The second example value of the specification: a space after the
    closing parenthesis at offset 12. *)
Lemma never_reports_whitespace_witness :
  violation (Doc := Doc) sampleIsWhitespace sampleRuleMessages "never"
    "rotate(45deg) " 12 sampleNode
  = Some (problemFor (messages_rejected sampleRuleMessages) sampleNode).
Proof.
  pose proof (never_reports_whitespace (Doc := Doc) sampleIsWhitespace sampleRuleMessages
                (mkDeclaration "rotate(45deg) " sampleNode) 12) as H.
  cbv zeta in H. destruct H as (Hsome & _). apply Hsome. reflexivity.
Defined.

End SeverityAndNeverExamples.
